(** * mirgecom: time stepping and checkpointing utilities

    A shallow embedding of [mirgecom/simutil.py] ([check_step],
    [inviscid_sim_timestep], [sim_checkpoint]) and of
    [mirgecom/steppers.py] ([euler_flow_stepper]), with the properties
    the specification states about them.

    Numbers.  Python numbers are duck typed: the same function runs on
    [int] (unbounded, exact) and on [float] (IEEE 754 binary64).  The
    times and step sizes of [simutil.py] are therefore written once over
    an interface, [PyNumber], with an instance for each of the two;
    binary64 values are Rocq's primitive floats, so every rounding is the
    one the interpreter performs.  Errors are norms that numpy computes
    and reduces in binary64, whatever the times are.
    [euler_flow_stepper] divides and returns the literal [0.0]; it is
    written on binary64 directly, and its division is that of Python
    floats, which raises on a zero divisor.

    Collaborators.  The discretization, the equation of state, the
    initializer, the integrator, the array library and the io helpers are
    not part of these sources.  The code is parametric in them (the
    [Imports] classes and the objects passed as arguments), and a call to
    one of them returns a value.  Two steps of the code itself can fail on
    what it is handed: [q[0]] on a state without fields, and [str.format]
    on a case name with braces; both are part of the model.

    Effects.  Log lines, files written and, in [sim_checkpoint], the
    evaluations of the equation of state and of the reference solution
    are events of a trace.  What the code itself can raise is an outcome:
    an index out of range, the maximum of an empty list, a division by
    zero, a replacement field that cannot be filled, the [ValueError] of
    a run that failed to follow its reference solution.
    The [while] loop runs on fuel. *)

From Stdlib Require Import ZArith List String Ascii Bool Lia.
From Stdlib Require Import Floats DecimalString DecimalPos DecimalN Sorted.
Import ListNotations.

Set Implicit Arguments.
Open Scope Z_scope.

(** ** Python numbers *)

(** The operators the modelled code applies to times, step sizes and
    errors: [+], [-], [<], [<=], and the NaN test that [numpy.max] relies
    on.  [a > b] is [b < a], as in the interpreter. *)
Class PyNumber (N : Type) : Type := {
  nadd : N -> N -> N;
  nsub : N -> N -> N;
  nltb : N -> N -> bool;
  nleb : N -> N -> bool;
  nisnan : N -> bool
}.

Definition ngtb {N} `{PyNumber N} (a b : N) : bool := nltb b a.

#[export] Instance PyInt : PyNumber Z := {
  nadd := Z.add;
  nsub := Z.sub;
  nltb := Z.ltb;
  nleb := Z.leb;
  nisnan := fun _ => false
}.

#[export] Instance PyFloat : PyNumber float := {
  nadd := PrimFloat.add;
  nsub := PrimFloat.sub;
  nltb := PrimFloat.ltb;
  nleb := PrimFloat.leb;
  nisnan := PrimFloat.is_nan
}.

(** Comparisons agree with each other wherever no NaN is involved, and
    they are those of an order; this holds for [int] and for binary64. *)
Class PyNumberOrder (N : Type) `{PyNumber N} : Prop := {
  nleb_not_gt : forall a b : N, nleb a b = true -> ngtb a b = false;
  not_gt_nleb : forall a b : N,
      nisnan a = false -> nisnan b = false -> ngtb a b = false -> nleb a b = true;
  nltb_not_nan : forall a b : N,
      nltb a b = true -> nisnan a = false /\ nisnan b = false;
  nltb_nleb : forall a b : N, nltb a b = true -> nleb a b = true;
  nleb_refl : forall a : N, nisnan a = false -> nleb a a = true;
  nleb_trans : forall a b c : N,
      nleb a b = true -> nleb b c = true -> nleb a c = true;
  nltb_nleb_trans : forall a b c : N,
      nltb a b = true -> nleb b c = true -> nltb a c = true
}.

Arguments PyNumberOrder N {_}.

(** Exact arithmetic: no NaN, and subtraction undoes addition.  This holds
    for [int]; it fails for binary64. *)
Class PyNumberExact (N : Type) `{PyNumber N} : Prop := {
  exact_no_nan : forall a : N, nisnan a = false;
  exact_add_sub : forall a b : N, nadd a (nsub b a) = b;
  exact_leb_refl : forall a : N, nleb a a = true
}.

Arguments PyNumberExact N {_}.

(** ** Python values and exceptions *)

(** The values the modelled functions return or attach to an exception. *)
#[local] Unset Elimination Schemes.
Inductive pyval (N Arr : Type) : Type :=
| VInt (z : Z)
| VNum (x : N)
| VStr (s : string)
| VArr (a : Arr)
| VTuple (items : list (pyval N Arr)).

#[local] Set Elimination Schemes.

Arguments VInt {N Arr} z.
Arguments VNum {N Arr} x.
Arguments VStr {N Arr} s.
Arguments VArr {N Arr} a.
Arguments VTuple {N Arr} items.

(** An exception: its class and the arguments it was constructed with. *)
Record exn (N Arr : Type) : Type := MkExn {
  exn_class : string;
  exn_args : list (pyval N Arr)
}.

Definition ValueError {N Arr} (msg : string) : exn N Arr :=
  MkExn "ValueError" [VStr msg].

Definition IndexError {N Arr} (msg : string) : exn N Arr :=
  MkExn "IndexError" [VStr msg].

Definition ZeroDivisionError {N Arr} (msg : string) : exn N Arr :=
  MkExn "ZeroDivisionError" [VStr msg].

(** How a call ends: it returns, it raises, or (for the [while] loop,
    which is run with fuel) the fuel runs out first. *)
Inductive outcome (N Arr A : Type) : Type :=
| Returned (a : A)
| Raised (e : exn N Arr)
| OutOfFuel.

Arguments Returned {N Arr A} a.
Arguments Raised {N Arr A} e.
Arguments OutOfFuel {N Arr A}.

(** The MPI communicator, as far as the code looks at it. *)
Record Comm : Type := MkComm { Get_rank : Z }.

(** What a call does that its caller or the user can observe, in order. *)
Inductive event (N Arr : Type) : Type :=
| EvGetRank (comm : Comm)
| EvEos (q : Arr)
| EvExactSoln (t : N) (x_vec : Arr)
| EvLogInfo (msg : string)
| EvLogError (msg : string)
| EvOutputDump (basename : string) (io_fields : list (string * Arr))
               (comm : option Comm) (step : Z) (t : N)
| EvWriteVtk (filename : string) (io_fields : list (string * Arr)).

Arguments EvGetRank {N Arr} comm.
Arguments EvEos {N Arr} q.
Arguments EvExactSoln {N Arr} t x_vec.
Arguments EvLogInfo {N Arr} msg.
Arguments EvLogError {N Arr} msg.
Arguments EvOutputDump {N Arr} basename io_fields comm step t.
Arguments EvWriteVtk {N Arr} filename io_fields.

(** ** Effects: a trace of events and an outcome *)

Definition M (N Arr A : Type) : Type := list (event N Arr) * outcome N Arr A.

Definition ret {N Arr A} (a : A) : M N Arr A := ([], Returned a).

Definition bind {N Arr A B} (m : M N Arr A) (k : A -> M N Arr B) : M N Arr B :=
  match m with
  | (tr, Returned a) => let (tr', r) := k a in (tr ++ tr', r)
  | (tr, Raised e) => (tr, Raised e)
  | (tr, OutOfFuel) => (tr, OutOfFuel)
  end.

Definition emit {N Arr} (e : event N Arr) : M N Arr unit := ([e], Returned tt).

Definition raise {N Arr A} (e : exn N Arr) : M N Arr A := ([], Raised e).

Definition trace {N Arr A} (m : M N Arr A) : list (event N Arr) := fst m.
Definition result {N Arr A} (m : M N Arr A) : outcome N Arr A := snd m.

Declare Scope py_scope.
Delimit Scope py_scope with py.
Notation "x <- m ;; k" := (bind m (fun x => k))
  (at level 61, m at next level, right associativity) : py_scope.
Notation "m ;; k" := (bind m (fun _ => k))
  (at level 61, right associativity) : py_scope.
Open Scope py_scope.

(** ** Built-ins and numpy reductions *)

Definition newline : string := String (ascii_of_nat 10) EmptyString.

Section Builtins.

Context {N Arr : Type} {HN : PyNumber N}.

(** [numpy.maximum] of two binary64 values: a NaN operand is the
    result. *)
Definition np_maximum (a b : float) : float :=
  if PrimFloat.is_nan a then a
  else if PrimFloat.is_nan b then b
  else if PrimFloat.ltb a b then b else a.

(** [numpy.max] of a list of floats, which numpy reduces as a binary64
    array; an empty one has no maximum. *)
Definition np_max (l : list float) : M N Arr float :=
  match l with
  | [] => raise (ValueError
      "zero-size array to reduction operation maximum which has no identity")
  | x :: xs => ret (fold_left np_maximum xs x)
  end.

(** The built-in [max] of a list: the first item, replaced by each later
    item that compares greater. *)
Definition py_max (l : list N) : M N Arr N :=
  match l with
  | [] => raise (ValueError "max() arg is an empty sequence")
  | x :: xs => ret (fold_left (fun m y => if ngtb y m then y else m) xs x)
  end.

(** [l[i]] on a list, for an index that is not negative. *)
Definition py_index {A} (l : list A) (i : nat) : M N Arr A :=
  match nth_error l i with
  | Some a => ret a
  | None => raise (IndexError "list index out of range")
  end.

(** [a / b] on Python floats: a zero divisor raises, every other quotient
    is the binary64 one. *)
Definition py_truediv (a b : float) : M N Arr float :=
  if PrimFloat.eqb b 0%float
  then raise (ZeroDivisionError "float division by zero")
  else ret (PrimFloat.div a b).

End Builtins.

(** [range(n)]. *)
Definition py_range (n : Z) : list Z := map Z.of_nat (seq 0 (Z.to_nat n)).

(** ** mirgecom/simutil.py *)

Module Simutil.

(** [check_step(step, interval)]; [%] on Python integers is the floored
    modulo, which is [Z.modulo]. *)
Definition check_step (step interval : Z) : bool :=
  if interval =? 0 then true
  else if interval <? 0 then false
  else if step mod interval =? 0 then true
  else false.

(** The discretization object: [discr.nodes()] and [discr.dim]. *)
Record Discr (Arr : Type) : Type := MkDiscr {
  discr_nodes : Arr;
  discr_dim : Z
}.

(** The equation of state is called as [eos(q=q)]. *)
Definition Eos (Arr : Type) : Type := Arr -> Arr.

(** The functions [simutil.py] imports from [meshmode], [mirgecom.io]
    and [mirgecom.euler], what it asks of the state [q] (its length, the
    array context of its first field, its difference with another state),
    the error of one field, and the text Python prints for a list of
    errors.  None of them is part of the sources at hand; the code below
    is parametric in them. *)
Class Imports (N Arr : Type) : Type := {
  (** the type of [q[0].array_context] *)
  Actx : Type;
  (** [len(q)]: the number of fields of a state *)
  num_fields : Arr -> nat;
  (** [q[0].array_context], for a state that has a first field *)
  array_context : Arr -> Actx;
  thaw : Actx -> Arr -> Arr;
  get_inviscid_timestep : Discr Arr -> Arr -> N -> Eos Arr -> N;
  make_status_message : N -> Z -> N -> N -> Arr -> string;
  (** the maximum absolute error of field [i] between two states, a
      binary64 number *)
  field_error : Arr -> Arr -> nat -> float;
  make_io_fields : Z -> Arr -> Arr -> Eos Arr -> list (string * Arr);
  arr_sub : Arr -> Arr -> Arr;
  str_of_errors : list float -> string
}.

Section Code.

Context {N Arr : Type} {HN : PyNumber N} {HI : Imports N Arr}.

(** [inviscid_sim_timestep(discr, state, t, dt, cfl, eos, t_final,
    constant_cfl)]. *)
Definition inviscid_sim_timestep (discr : Discr Arr) (state : Arr) (t dt cfl : N)
    (eos : Eos Arr) (t_final : N) (constant_cfl : bool) : N :=
  let mydt := dt in
  let mydt := if constant_cfl then get_inviscid_timestep discr state cfl eos
              else mydt in
  let mydt := if ngtb (nadd t mydt) t_final then nsub t_final t else mydt in
  mydt.

(** The reference solution generator, called as
    [exact_soln(t=t, x_vec=nodes, eos=eos)]. *)
Definition ExactSoln : Type := N -> Arr -> Eos Arr -> Arr.

(** Modelled from the spec: [compare_states] of [mirgecom.checkstate],
    which is not among the sources, yields the per-field maximum absolute
    error between the state and the expected state: one error for each
    field of the state, in the order of the fields. *)
Definition compare_states (red_state blue_state : Arr) : list float :=
  map (field_error red_state blue_state) (seq 0 (num_fields red_state)).

(** [q[0].array_context]: a state without fields has no first field, and
    indexing it raises. *)
Definition first_array_context (q : Arr) : M N Arr Actx :=
  match num_fields q with
  | O => raise (IndexError "index 0 is out of bounds for axis 0 with size 0")
  | S _ => ret (array_context q)
  end.

(** [sim_checkpoint(discr, visualizer, eos, logger, q, vizname, exact_soln,
    step, t, dt, cfl, nstatus, nviz, exittol, constant_cfl, comm)].  The
    visualizer and the logger are the sinks of the events.  [have_exact]
    and [expected_state] are one option: the state is bound exactly when
    the flag is set.  The errors and the tolerance they are compared with
    are binary64 numbers. *)
Definition sim_checkpoint (discr : Discr Arr) (eos : Eos Arr) (q : Arr)
    (vizname : string) (exact_soln : option ExactSoln) (step : Z) (t dt cfl : N)
    (nstatus nviz : Z) (exittol : float) (constant_cfl : bool)
    (comm : option Comm) : M N Arr Z :=
  let do_viz := check_step step nviz in
  let do_status := check_step step nstatus in
  if negb do_viz && negb do_status then ret 0 else
  actx <- first_array_context q ;;
  let nodes := thaw actx (discr_nodes discr) in
  rank <- match comm with
          | Some c => emit (EvGetRank c) ;; ret (Get_rank c)
          | None => ret 0
          end ;;
  dv <- (emit (EvEos q) ;; ret (eos q)) ;;
  expected_state <-
    match exact_soln with
    | Some exact =>
        if do_status || do_viz
        then emit (EvExactSoln t nodes) ;; ret (Some (exact t nodes eos))
        else ret None
    | None => ret None
    end ;;
  checkpoint_status <-
    (if do_status then
       let statusmesg := make_status_message t step dt cfl dv in
       match expected_state with
       | Some expected =>
           let max_errors := compare_states q expected in
           let statusmesg :=
             (statusmesg ++ newline ++ "------   Err("
                ++ str_of_errors max_errors ++ ")")%string in
           (if rank =? 0 then emit (EvLogInfo statusmesg) else ret tt) ;;
           maxerr <- np_max max_errors ;;
           if PrimFloat.ltb exittol maxerr
           then emit (EvLogError "Solution failed to follow expected result.") ;;
                ret 1
           else ret 0
       | None => ret 0
       end
     else ret 0) ;;
  (if do_viz then
     let dim := discr_dim discr in
     let io_fields := make_io_fields dim q dv eos in
     let io_fields :=
       match expected_state with
       | Some expected =>
           let io_fields := io_fields ++ [("exact_soln"%string, expected)] in
           let result_resid := arr_sub q expected in
           io_fields ++ [("residual"%string, result_resid)]
       | None => io_fields
       end in
     emit (EvOutputDump vizname io_fields comm step t)
   else ret tt) ;;
  ret checkpoint_status.

End Code.

End Simutil.

(** ** mirgecom/steppers.py *)

Module Steppers.

Import PrimFloat.

(** The mesh: [mesh.dim] and [mesh.nelements]. *)
Record Mesh : Type := MkMesh {
  mesh_dim : Z;
  mesh_nelements : Z
}.

(** [EagerDGDiscretization(cl_ctx, mesh, order=order)]. *)
Record Discr : Type := MkDiscr {
  discr_mesh : Mesh;
  discr_order : Z
}.

(** The equation of state object: [eos(fields)] yields the dependent
    variables, one array each; [eos.split_fields(dim, dv)] names them. *)
Record Eos (Arr : Type) : Type := MkEos {
  eos_call : Arr -> list Arr;
  eos_split_fields : Z -> list Arr -> list (string * Arr);
  eos_name : string
}.

(** The initializer object, called as [initializer(t, nodes)]. *)
Record Initializer (Arr : Type) : Type := MkInitializer {
  init_call : float -> Arr -> Arr;
  init_name : string
}.

(** The [parameters] dictionary, with the keys the function reads. *)
Record Parameters (Arr Bnd : Type) : Type := MkParameters {
  p_mesh : Mesh;
  p_time : float;
  p_order : Z;
  p_tfinal : float;
  p_initializer : Initializer Arr;
  p_exittol : float;
  p_casename : string;
  p_boundaries : Bnd;
  p_eos : Eos Arr;
  p_cfl : float;
  p_dt : float;
  p_constantcfl : bool;
  p_nstatus : Z
}.

(** What [steppers.py] imports from [grudge], [mirgecom.euler] and
    [mirgecom.integrators], the array operations it applies, the text
    Python prints for a float and for a list of floats, and what
    [str.format] makes of a case name that holds braces. *)
Class Imports (Arr Bnd : Type) : Type := {
  discr_nodes : Discr -> Arr;
  get_inviscid_timestep : Discr -> Arr -> float -> Eos Arr -> float;
  inviscid_operator : Discr -> Arr -> float -> Bnd -> Eos Arr -> Arr;
  rk4_step : Arr -> float -> float -> (float -> Arr -> Arr) -> Arr;
  split_fields : Z -> Arr -> list (string * Arr);
  arr_sub : Arr -> Arr -> Arr;
  (** [np.max(np.abs(a[i].get()))] *)
  max_abs_component : Arr -> Z -> float;
  (** [np.min(a.get())] and [np.max(a.get())] *)
  arr_min : Arr -> float;
  arr_max : Arr -> float;
  str_of_float : float -> string;
  str_of_floats : list float -> string;
  (** [casename.format(iorank=rank, iostep=istep)] for a case name with
      braces in it: the text that replaces it, or the class and the message
      of the exception of a replacement field that cannot be filled *)
  format_braces : string -> Z -> Z -> (string * string) + string
}.

(** [str] of an integer. *)
Definition str_of_int (z : Z) : string :=
  DecimalString.NilZero.string_of_int (Z.to_int z).

Fixpoint zeros (n : nat) : string :=
  match n with
  | O => EmptyString
  | S k => String "0" (zeros k)
  end.

(** The format specification [04d]: the sign, then zeros up to a width of
    four, then the digits. *)
Definition format_04d (z : Z) : string :=
  let digits := DecimalString.NilZero.string_of_uint (N.to_uint (Z.abs_N z)) in
  let sign := if z <? 0 then "-"%string else EmptyString in
  (sign ++ zeros (4 - String.length sign - String.length digits) ++ digits)%string.

(** Whether a string holds an opening or a closing brace. *)
Fixpoint has_braces (s : string) : bool :=
  match s with
  | EmptyString => false
  | String c s' =>
      (Ascii.eqb c "{" || Ascii.eqb c "}")%char || has_braces s'
  end.

(** The variables of [euler_flow_stepper] that the loop and [write_soln]
    read and assign. *)
Record locals (Arr : Type) : Type := MkLocals {
  t : float;
  dt : float;
  cfl : float;
  istep : Z;
  fields : Arr;
  sdt : float
}.

Section Code.

Context {Arr Bnd : Type} {HI : Imports Arr Bnd}.

Variable parameters : Parameters Arr Bnd.

Let mesh := p_mesh parameters.
Let order := p_order parameters.
Let t_final := p_tfinal parameters.
Let initializer := p_initializer parameters.
Let exittol := p_exittol parameters.
Let casename := p_casename parameters.
Let boundaries := p_boundaries parameters.
Let eos := p_eos parameters.
Let constantcfl := p_constantcfl parameters.
Let nstepstatus := p_nstatus parameters.

Let rank : Z := 0.
Let dim := mesh_dim mesh.
Let discr := MkDiscr mesh order.
Let nodes := discr_nodes discr.

(** The order [make_visualizer] is given; the visualizer is the sink of
    the [EvWriteVtk] events. *)
Definition vis_order : Z :=
  if dim =? 2 then discr_order discr + 3 else discr_order discr.

(** [(casename + "-{iorank:04d}-{iostep:04d}.vtu").format(iorank=rank,
    iostep=istep)].  [str.format] reads the template from left to right:
    it copies a case name without braces, and it treats any other case
    name as replacement fields and escapes of its own, which it expands or
    rejects before it comes to the two fields of the suffix. *)
Definition format_name (rank istep : Z) : M float Arr string :=
  prefix <- (if has_braces casename
             then match format_braces casename rank istep with
                  | inl (class, msg) => raise (MkExn class [VStr msg])
                  | inr s => ret s
                  end
             else ret casename) ;;
  ret (prefix ++ "-" ++ format_04d rank ++ "-" ++ format_04d istep
         ++ ".vtu")%string.

(** The closure [write_soln], reading the variables as they are when it is
    called. *)
Definition write_soln (l : locals Arr) : M float Arr (list float) :=
  let dv := eos_call eos (fields l) in
  let expected_result := init_call initializer (t l) nodes in
  let result_resid := arr_sub (fields l) expected_result in
  let maxerr := map (max_abs_component result_resid) (py_range (dim + 2)) in
  let mindv := map arr_min dv in
  let maxdv := map arr_max dv in
  mindv0 <- py_index mindv 0 ;;
  maxdv0 <- py_index maxdv 0 ;;
  mindv1 <- py_index mindv 1 ;;
  maxdv1 <- py_index maxdv 1 ;;
  let statusmsg :=
    ("Status: Step(" ++ str_of_int (istep l) ++ ") Time("
       ++ str_of_float (t l) ++ ")" ++ newline
     ++ "------   P(" ++ str_of_float mindv0 ++ ","
       ++ str_of_float maxdv0 ++ ")" ++ newline
     ++ "------   T(" ++ str_of_float mindv1 ++ ","
       ++ str_of_float maxdv1 ++ ")" ++ newline
     ++ "------   dt,cfl = (" ++ str_of_float (dt l) ++ ","
       ++ str_of_float (cfl l) ++ ")" ++ newline
     ++ "------   Err(" ++ str_of_floats maxerr ++ ")")%string in
  emit (EvLogInfo statusmsg) ;;
  let io_fields := split_fields dim (fields l) in
  let io_fields := io_fields ++ eos_split_fields eos dim dv in
  let io_fields := io_fields ++ [("exact_soln"%string, expected_result)] in
  let io_fields := io_fields ++ [("residual"%string, result_resid)] in
  visfilename <- format_name rank (istep l) ;;
  emit (EvWriteVtk visfilename io_fields) ;;
  ret maxerr.

Definition rhs (t : float) (w : Arr) : Arr :=
  inviscid_operator discr w t boundaries eos.

(** The first statement of the loop body: the step size under a constant
    CFL number, the CFL number under a constant step size.  [sdt] is the
    number the discretization computed; the quotient is that of Python
    floats, which raises on a zero divisor. *)
Definition select_dt (l : locals Arr) : M float Arr (locals Arr) :=
  if constantcfl
  then ret (MkLocals (t l) (sdt l) (cfl l) (istep l) (fields l) (sdt l))
  else cfl' <- py_truediv (dt l) (sdt l) ;;
       ret (MkLocals (t l) (dt l) cfl' (istep l) (fields l) (sdt l)).

(** The rest of the body after the status output: one step of the
    integrator, the clock, the counter, the next stable step size. *)
Definition advance (l : locals Arr) : locals Arr :=
  let fields' := rk4_step (fields l) (t l) (dt l) rhs in
  let t' := (t l + dt l)%float in
  let istep' := istep l + 1 in
  let sdt' := get_inviscid_timestep discr fields' (cfl l) eos in
  MkLocals t' (dt l) (cfl l) istep' fields' sdt'.

(** One pass through the body of [while t < t_final]. *)
Definition loop_body (l : locals Arr) : M float Arr (locals Arr) :=
  l <- select_dt l ;;
  (if nstepstatus >? 0
   then if istep l mod nstepstatus =? 0
        then write_soln l ;; ret tt
        else ret tt
   else ret tt) ;;
  ret (advance l).

(** [while t < t_final: ...], with fuel for the number of times the
    condition is evaluated. *)
Fixpoint stepping_loop (fuel : nat) (l : locals Arr) : M float Arr (locals Arr) :=
  match fuel with
  | O => ([], OutOfFuel)
  | S fuel' =>
      if (t l <? t_final)%float
      then l' <- loop_body l ;; stepping_loop fuel' l'
      else ret l
  end.

(** The text logged before the loop. *)
Definition init_message : string :=
  ("Num " ++ str_of_int dim ++ "d elements: "
     ++ str_of_int (mesh_nelements mesh) ++ newline
   ++ "Timestep:        " ++ str_of_float (p_dt parameters) ++ newline
   ++ "Final time:      " ++ str_of_float t_final ++ newline
   ++ "Status freq:     " ++ str_of_int nstepstatus ++ newline
   ++ "Initialization:  " ++ init_name initializer ++ newline
   ++ "EOS:             " ++ eos_name eos)%string.

(** The error of the state the loop leaves: with a status interval, the
    final dump and the built-in [max] of what [write_soln] returns;
    without one, [numpy.max] of the errors and nothing written. *)
Definition final_error (l : locals Arr) : M float Arr float :=
  if nstepstatus >? 0
  then emit (EvLogInfo "Writing final dump.") ;;
       errs <- write_soln l ;;
       py_max errs
  else
    let expected_result := init_call initializer (t l) nodes in
    let result_resid := arr_sub (fields l) expected_result in
    np_max (map (max_abs_component result_resid) (py_range (dim + 2))).

(** What follows the loop: the final error, the tolerance test, the
    return value. *)
Definition finish (l : locals Arr) : M float Arr (pyval float Arr) :=
  maxerr <- final_error l ;;
  if (exittol <? maxerr)%float
  then raise (ValueError "Solution failed to follow expected result.")
  else emit (EvLogInfo "Goodbye!") ;; ret (VNum maxerr).

(** The variables as the loop finds them: the clock and the step sizes
    from [parameters], step 0, the initial state [initializer(0, nodes)]
    and its stable step size. *)
Definition initial_locals : locals Arr :=
  let fields := init_call initializer 0%float nodes in
  let sdt := get_inviscid_timestep discr fields (p_cfl parameters) eos in
  MkLocals (p_time parameters) (p_dt parameters) (p_cfl parameters) 0 fields sdt.

(** [euler_flow_stepper(parameters)]. *)
Definition euler_flow_stepper (fuel : nat) : M float Arr (pyval float Arr) :=
  if (t_final <=? p_time parameters)%float then ret (VNum 0%float) else
  emit (EvLogInfo init_message) ;;
  l <- stepping_loop fuel initial_locals ;;
  finish l.

End Code.

End Steppers.

(** ** Notions the statements use *)

Section Notions.

Context {N Arr : Type} {HN : PyNumber N} {HI : Simutil.Imports N Arr}.

(** The step [inviscid_sim_timestep] has before clipping: the CFL step
    under [constant_cfl], the given [dt] otherwise. *)
Definition unclipped_dt (discr : Simutil.Discr Arr) (state : Arr)
    (eos : Simutil.Eos Arr) (dt cfl : N) (constant_cfl : bool) : N :=
  if constant_cfl then Simutil.get_inviscid_timestep discr state cfl eos else dt.

(** The nodes [sim_checkpoint] evaluates the reference solution on: those
    of the discretization, thawed in the array context of the state. *)
Definition thawed_nodes (discr : Simutil.Discr Arr) (q : Arr) : Arr :=
  Simutil.thaw (Simutil.array_context q) (Simutil.discr_nodes discr).

(** The errors [sim_checkpoint] compares with the tolerance on a status
    step: [compare_states] of the state and the reference solution. *)
Definition status_errors (discr : Simutil.Discr Arr) (eos : Simutil.Eos Arr)
    (q : Arr) (t : N) (exact : Simutil.ExactSoln) : list float :=
  Simutil.compare_states q (exact t (thawed_nodes discr q) eos).

End Notions.

(** The order of two finite binary64 values of one sign: exponents first,
    then mantissas. *)
Definition lexcmp (e1 : Z) (m1 : positive) (e2 : Z) (m2 : positive)
    : comparison :=
  match e1 ?= e2 with
  | Eq => Pos.compare m1 m2
  | Lt => Lt
  | Gt => Gt
  end.

(** Two comparisons along a chain [a ? b ? c], where they determine the
    comparison of [a] and [c]. *)
Definition chain (c1 c2 : comparison) : option comparison :=
  match c1, c2 with
  | Eq, c | c, Eq => Some c
  | Lt, Lt => Some Lt
  | Gt, Gt => Some Gt
  | _, _ => None
  end.

(** The file [write_soln] writes for the variables [l], the fields it
    puts in it, and the per-field errors it returns. *)
Section DumpNotions.

Import Steppers.

Context {Arr Bnd : Type} {HI : Imports Arr Bnd}.
Variable parameters : Parameters Arr Bnd.

Definition dump_name (l : locals Arr) : string :=
  (p_casename parameters ++ "-" ++ format_04d 0 ++ "-"
     ++ format_04d (istep l) ++ ".vtu")%string.

(** The variables as [select_dt] leaves them when the division, if any,
    has a divisor other than zero. *)
Definition selected (l : locals Arr) : locals Arr :=
  if p_constantcfl parameters
  then MkLocals (t l) (sdt l) (cfl l) (istep l) (fields l) (sdt l)
  else MkLocals (t l) (dt l) (dt l / sdt l)%float (istep l) (fields l) (sdt l).

(** Whether the first statement of the loop body divides by zero. *)
Definition divides_by_zero (l : locals Arr) : bool :=
  negb (p_constantcfl parameters) && (sdt l =? 0)%float.

Definition expected_result (l : locals Arr) : Arr :=
  init_call (p_initializer parameters) (t l)
    (discr_nodes (MkDiscr (p_mesh parameters) (p_order parameters))).

Definition dump_fields (l : locals Arr) : list (string * Arr) :=
  let dim := mesh_dim (p_mesh parameters) in
  ((split_fields dim (fields l)
      ++ eos_split_fields (p_eos parameters) dim
           (eos_call (p_eos parameters) (fields l)))
     ++ [("exact_soln"%string, expected_result l)])
    ++ [("residual"%string, arr_sub (fields l) (expected_result l))].

Definition field_errors (l : locals Arr) : list float :=
  map (max_abs_component (arr_sub (fields l) (expected_result l)))
      (py_range (mesh_dim (p_mesh parameters) + 2)).

End DumpNotions.

(** ** Notions for the further properties *)

Section CheckpointNotions.

Context {N Arr : Type} {HN : PyNumber N} {HI : Simutil.Imports N Arr}.

(** The fields [sim_checkpoint] hands to [make_output_dump]: those of
    [make_io_fields] and, with a reference solution, the reference
    solution and the residual. *)
Definition viz_fields (discr : Simutil.Discr Arr) (eos : Simutil.Eos Arr)
    (q : Arr) (t : N) (exact_soln : option Simutil.ExactSoln)
    : list (string * Arr) :=
  let io_fields :=
    Simutil.make_io_fields (Simutil.discr_dim discr) q (eos q) eos in
  match exact_soln with
  | Some exact =>
      let expected := exact t (thawed_nodes discr q) eos in
      (io_fields ++ [("exact_soln"%string, expected)])
        ++ [("residual"%string, Simutil.arr_sub q expected)]
  | None => io_fields
  end.

(** The evaluations with which a due call begins: the rank, the equation
    of state, the reference solution. *)
Definition evaluations (discr : Simutil.Discr Arr) (q : Arr) (t : N)
    (exact_soln : option (Simutil.ExactSoln (N := N) (Arr := Arr)))
    (comm : option Comm) : list (event N Arr) :=
  match comm with Some c => [EvGetRank c] | None => [] end
    ++ [EvEos q]
    ++ match exact_soln with
       | Some _ => [EvExactSoln t (thawed_nodes discr q)]
       | None => []
       end.

(** The text of the status line: the message of [make_status_message]
    with the errors appended. *)
Definition status_text (discr : Simutil.Discr Arr) (eos : Simutil.Eos Arr)
    (q : Arr) (step : Z) (t dt cfl : N) (exact : Simutil.ExactSoln) : string :=
  (Simutil.make_status_message t step dt cfl (eos q) ++ newline
     ++ "------   Err("
     ++ Simutil.str_of_errors (status_errors discr eos q t exact) ++ ")")%string.

End CheckpointNotions.

(** Log lines and dumps, as opposed to evaluations. *)
Definition is_output {N Arr : Type} (e : event N Arr) : bool :=
  match e with
  | EvLogInfo _ | EvLogError _ | EvOutputDump _ _ _ _ _ | EvWriteVtk _ _ => true
  | EvGetRank _ | EvEos _ | EvExactSoln _ _ => false
  end.

Definition is_log {N Arr : Type} (e : event N Arr) : bool :=
  match e with
  | EvLogInfo _ | EvLogError _ => true
  | _ => false
  end.

Definition is_dump {N Arr : Type} (e : event N Arr) : bool :=
  match e with
  | EvOutputDump _ _ _ _ _ => true
  | _ => false
  end.

(** The names of the files a trace writes, in order. *)
Definition vtk_names {N Arr : Type} (tr : list (event N Arr)) : list string :=
  flat_map (fun e => match e with EvWriteVtk f _ => [f] | _ => [] end) tr.

(** The name of the file of step [i] in a run of [casename], on the one
    rank [euler_flow_stepper] knows. *)
Definition step_file_name (casename : string) (i : Z) : string :=
  (casename ++ "-" ++ Steppers.format_04d 0 ++ "-" ++ Steppers.format_04d i
     ++ ".vtu")%string.

(** A file of step [i]: a name that ends with the rank 0 and the step, in
    four digits each, and the extension, whatever [str.format] has made
    of the case name before them. *)
Definition is_step_file (i : Z) (name : string) : Prop :=
  exists prefix : string,
    name = (prefix ++ "-" ++ Steppers.format_04d 0 ++ "-"
              ++ Steppers.format_04d i ++ ".vtu")%string.

(** Whether a string holds a dash. *)
Fixpoint has_dash (s : string) : bool :=
  match s with
  | EmptyString => false
  | String c s' => Ascii.eqb c "-" || has_dash s'
  end.

(** The [n] steps from [a] on: [a, a + 1, ..., a + n - 1]. *)
Definition steps_from (a : Z) (n : nat) : list Z :=
  map (fun k => a + Z.of_nat k) (seq 0 n).

(** The number a string of decimal digits stands for. *)
Definition decode_digits (s : string) : option Z :=
  option_map (fun u => Z.of_N (N.of_uint u))
    (DecimalString.NilEmpty.uint_of_string s).

(** ** Concrete inputs

    A one-node world for evaluating the code: an array is the list of its
    field values, the equation of state returns the state itself, and
    the error of a field is the absolute difference. *)

Module Examples.

Import PrimFloat.

Definition pointwise {A} (f : A -> A -> A) (a b : list A) : list A :=
  map (fun p => f (fst p) (snd p)) (combine a b).

Definition float_imports : Simutil.Imports float (list float) := {|
  Simutil.Actx := unit;
  Simutil.num_fields := @List.length float;
  Simutil.array_context := fun _ => tt;
  Simutil.thaw := fun _ a => a;
  Simutil.get_inviscid_timestep := fun _ _ cfl _ => cfl;
  Simutil.make_status_message := fun _ _ _ _ _ => "Status"%string;
  Simutil.field_error := fun q e i => (abs (nth i q 0 - nth i e 0))%float;
  Simutil.make_io_fields := fun _ q dv _ => [("q"%string, q); ("dv"%string, dv)];
  Simutil.arr_sub := pointwise PrimFloat.sub;
  Simutil.str_of_errors := fun _ => "..."%string
|}.

Definition int_imports : Simutil.Imports Z (list Z) := {|
  Simutil.Actx := unit;
  Simutil.num_fields := @List.length Z;
  Simutil.array_context := fun _ => tt;
  Simutil.thaw := fun _ a => a;
  Simutil.get_inviscid_timestep := fun _ _ cfl _ => cfl;
  Simutil.make_status_message := fun _ _ _ _ _ => "Status"%string;
  Simutil.field_error := fun q e i =>
    PrimFloat.of_uint63 (Uint63.of_Z (Z.abs (nth i q 0 - nth i e 0)));
  Simutil.make_io_fields := fun _ q dv _ => [("q"%string, q); ("dv"%string, dv)];
  Simutil.arr_sub := pointwise Z.sub;
  Simutil.str_of_errors := fun _ => "..."%string
|}.

Definition discr1 {A} (nodes : list A) : Simutil.Discr (list A) :=
  Simutil.MkDiscr nodes 1.

Definition eos_id {A} : Simutil.Eos (list A) := fun q => q.

(** A state of three fields and a reference solution that is off by a
    quarter in the second field. *)
Definition q3 : list float := [1; 2; 3]%float.
Definition exact_off (t : float) (x_vec : list float)
    (eos : Simutil.Eos (list float)) : list float := [1; 2.25; 3]%float.

(** A checkpoint call on [q3] at time 0.5 on the process of the given
    rank, without constant CFL. *)
Definition checkpoint (exact_soln : option Simutil.ExactSoln) (step : Z)
    (nstatus nviz : Z) (exittol : float) (rank : Z) : M float (list float) Z :=
  Simutil.sim_checkpoint (HI := float_imports) (discr1 [0%float]) eos_id q3
    "pulse" exact_soln step 0.5%float 0.25%float 1%float nstatus nviz exittol
    false (Some (MkComm rank)).

(** A world for [euler_flow_stepper]: the state is one number [y] with
    [y' = 1], advanced by the classical Runge-Kutta step; the stable step
    size is always one half.  The case names of its runs hold no brace;
    one that did would name a positional field, which [str.format] cannot
    fill. *)
Definition ode_imports : Steppers.Imports float unit := {|
  Steppers.discr_nodes := fun _ => 0%float;
  Steppers.get_inviscid_timestep := fun _ _ _ _ => 0.5%float;
  Steppers.inviscid_operator := fun _ _ _ _ _ => 1%float;
  Steppers.rk4_step := fun y t h rhs =>
    (let k1 := rhs t y in
     let k2 := rhs (t + h / 2) (y + h / 2 * k1) in
     let k3 := rhs (t + h / 2) (y + h / 2 * k2) in
     let k4 := rhs (t + h) (y + h * k3) in
     y + h / 6 * (k1 + 2 * k2 + 2 * k3 + k4))%float;
  Steppers.split_fields := fun _ y => [("y"%string, y)];
  Steppers.arr_sub := PrimFloat.sub;
  Steppers.max_abs_component := fun r _ => abs r;
  Steppers.arr_min := fun a => a;
  Steppers.arr_max := fun a => a;
  Steppers.str_of_float := fun _ => "<float>"%string;
  Steppers.str_of_floats := fun _ => "<floats>"%string;
  Steppers.format_braces := fun _ _ _ =>
    inl ("IndexError"%string,
         "Replacement index 0 out of range for positional args tuple"%string)
|}.

Definition ode_eos : Steppers.Eos float := {|
  Steppers.eos_call := fun y => [y; y];
  Steppers.eos_split_fields := fun _ dv => map (fun d => ("dv"%string, d)) dv;
  Steppers.eos_name := "IdealSingleGas"
|}.

(** The reference solution is [y = 1.0625 t]: it starts with the state and
    drifts away from it by a sixteenth per unit of time. *)
Definition ode_initializer : Steppers.Initializer float := {|
  Steppers.init_call := fun t _ => (1.0625 * t)%float;
  Steppers.init_name := "Lump"
|}.

(** From time 0 to [t_final] in steps of three quarters. *)
Definition ode_parameters (t_final : float) (nstatus : Z) (exittol : float)
    : Steppers.Parameters float unit := {|
  Steppers.p_mesh := Steppers.MkMesh 1 1;
  Steppers.p_time := 0%float;
  Steppers.p_order := 1;
  Steppers.p_tfinal := t_final;
  Steppers.p_initializer := ode_initializer;
  Steppers.p_exittol := exittol;
  Steppers.p_casename := "ode";
  Steppers.p_boundaries := tt;
  Steppers.p_eos := ode_eos;
  Steppers.p_cfl := 1%float;
  Steppers.p_dt := 0.75%float;
  Steppers.p_constantcfl := false;
  Steppers.p_nstatus := nstatus
|}.

(** The variables after the two passes that a run to time 1 makes. *)
Definition ode_final : Steppers.locals float :=
  Steppers.MkLocals 1.5%float 0.75%float 1.5%float 2 1.5%float 0.5%float.

End Examples.

(** ** Further concrete inputs *)

Module MoreExamples.

Import PrimFloat.

(** A reference solution whose second field is NaN. *)
Definition exact_nan (t : float) (x_vec : list float)
    (eos : Simutil.Eos (list float)) : list float := [1; nan; 3]%float.

(** [Examples.ode_parameters] with the start time, the step size, the
    equation of state and the initializer left open. *)
Definition ode_run (time t_final dt : float) (nstatus : Z) (exittol : float)
    (eos : Steppers.Eos float) (initializer : Steppers.Initializer float)
    : Steppers.Parameters float unit := {|
  Steppers.p_mesh := Steppers.MkMesh 1 1;
  Steppers.p_time := time;
  Steppers.p_order := 1;
  Steppers.p_tfinal := t_final;
  Steppers.p_initializer := initializer;
  Steppers.p_exittol := exittol;
  Steppers.p_casename := "ode";
  Steppers.p_boundaries := tt;
  Steppers.p_eos := eos;
  Steppers.p_cfl := 1%float;
  Steppers.p_dt := dt;
  Steppers.p_constantcfl := false;
  Steppers.p_nstatus := nstatus
|}.

(** An equation of state with one dependent variable only. *)
Definition short_eos : Steppers.Eos float := {|
  Steppers.eos_call := fun y => [y];
  Steppers.eos_split_fields := fun _ dv => map (fun d => ("dv"%string, d)) dv;
  Steppers.eos_name := "Short"
|}.

(** An initializer that yields NaN. *)
Definition nan_initializer : Steppers.Initializer float := {|
  Steppers.init_call := fun _ _ => nan;
  Steppers.init_name := "NaN"
|}.

End MoreExamples.

(** * Properties *)

(** ** Comparisons of binary64 values *)

Section FloatOrder.

Lemma SFcompare_nan (a b : spec_float) :
  SFcompare a b = None <-> a = S754_nan \/ b = S754_nan.
Proof.
  destruct a, b; simpl; split; intros E; try discriminate; auto;
    destruct E as [E | E]; discriminate.
Qed.

Lemma SFcompare_swap (a b : spec_float) (c : comparison) :
  SFcompare a b = Some c -> SFcompare b a = Some (CompOpp c).
Proof.
  destruct a as [sa|sa| |sa ma ea], b as [sb|sb| |sb mb eb]; simpl;
    intros E; try discriminate; injection E as <-;
    try (destruct sa; reflexivity); try (destruct sb; reflexivity);
    try (destruct sa, sb; reflexivity).
  f_equal.
  rewrite (Z.compare_antisym ea eb).
  destruct sa, sb; try reflexivity;
    destruct (ea ?= eb)%Z eqn:Ee; simpl; try reflexivity;
    pose proof (Pos.compare_cont_antisym ma mb Eq) as HA; simpl in HA;
    change PosDef.Pos.compare_cont with Pos.compare_cont;
    rewrite <- HA, ?CompOpp_involutive; reflexivity.
Qed.

Lemma SFcompare_refl (a : spec_float) :
  a <> S754_nan -> SFcompare a a = Some Eq.
Proof.
  destruct a as [s|s| |s m e]; simpl; intros Hn; try reflexivity.
  - destruct s; reflexivity.
  - congruence.
  - rewrite Z.compare_refl.
    change (PosDef.Pos.compare_cont Eq m m) with (Pos.compare m m).
    rewrite Pos.compare_refl. destruct s; reflexivity.
Qed.

Lemma is_nan_false (x : float) :
  PrimFloat.is_nan x = false <-> Prim2SF x <> S754_nan.
Proof.
  unfold PrimFloat.is_nan. rewrite FloatAxioms.eqb_spec. unfold SFeqb. split.
  - intros E Hn. rewrite Hn in E. simpl in E. discriminate.
  - intros Hn. rewrite (SFcompare_refl Hn). reflexivity.
Qed.

Lemma float_leb_not_gt (a b : float) :
  (a <=? b)%float = true -> (b <? a)%float = false.
Proof.
  rewrite FloatAxioms.leb_spec, FloatAxioms.ltb_spec. unfold SFleb, SFltb.
  destruct (SFcompare (Prim2SF a) (Prim2SF b)) as [c|] eqn:E; try discriminate.
  rewrite (SFcompare_swap _ _ E). destruct c; simpl; congruence.
Qed.

Lemma float_not_gt_leb (a b : float) :
  PrimFloat.is_nan a = false -> PrimFloat.is_nan b = false ->
  (b <? a)%float = false -> (a <=? b)%float = true.
Proof.
  rewrite !is_nan_false, FloatAxioms.leb_spec, FloatAxioms.ltb_spec.
  unfold SFleb, SFltb. intros Ha Hb.
  destruct (SFcompare (Prim2SF a) (Prim2SF b)) as [c|] eqn:E.
  - rewrite (SFcompare_swap _ _ E). destruct c; simpl; congruence.
  - apply SFcompare_nan in E. tauto.
Qed.

Lemma float_ltb_not_nan (a b : float) :
  (a <? b)%float = true ->
  PrimFloat.is_nan a = false /\ PrimFloat.is_nan b = false.
Proof.
  rewrite !is_nan_false, FloatAxioms.ltb_spec. unfold SFltb.
  destruct (SFcompare (Prim2SF a) (Prim2SF b)) as [c|] eqn:E; try discriminate.
  intros _. split; intros Hn; rewrite Hn in E;
    [|destruct (Prim2SF a)]; simpl in E; discriminate.
Qed.

Lemma lexcmp_spec e1 m1 e2 m2 :
  match lexcmp e1 m1 e2 m2 with
  | Lt => e1 < e2 \/ (e1 = e2 /\ (m1 < m2)%positive)
  | Eq => e1 = e2 /\ m1 = m2
  | Gt => e2 < e1 \/ (e1 = e2 /\ (m2 < m1)%positive)
  end.
Proof.
  unfold lexcmp. destruct (Z.compare_spec e1 e2); auto.
  destruct (Pos.compare_spec m1 m2); auto.
Qed.

Lemma lexcmp_trans e1 m1 e2 m2 e3 m3 c :
  chain (lexcmp e1 m1 e2 m2) (lexcmp e2 m2 e3 m3) = Some c ->
  lexcmp e1 m1 e3 m3 = c.
Proof.
  pose proof (lexcmp_spec e1 m1 e2 m2) as H12.
  pose proof (lexcmp_spec e2 m2 e3 m3) as H23.
  pose proof (lexcmp_spec e1 m1 e3 m3) as H13.
  destruct (lexcmp e1 m1 e2 m2), (lexcmp e2 m2 e3 m3); simpl;
    intros E; try discriminate; injection E as <-;
    destruct (lexcmp e1 m1 e3 m3); try reflexivity; exfalso; lia.
Qed.

Lemma chain_opp c1 c2 c :
  chain c1 c2 = Some c -> chain (CompOpp c1) (CompOpp c2) = Some (CompOpp c).
Proof.
  destruct c1, c2; simpl; intros E; try discriminate; injection E as <-;
    reflexivity.
Qed.

Lemma SFcompare_finite s1 m1 e1 s2 m2 e2 :
  SFcompare (S754_finite s1 m1 e1) (S754_finite s2 m2 e2)
  = Some (if s1 then if s2 then CompOpp (lexcmp e1 m1 e2 m2) else Lt
          else if s2 then Gt else lexcmp e1 m1 e2 m2).
Proof.
  simpl. unfold lexcmp. change PosDef.Pos.compare_cont with Pos.compare_cont.
  unfold Pos.compare.
  destruct s1, s2; try reflexivity; destruct (e1 ?= e2); reflexivity.
Qed.

Lemma SFcompare_trans a b c c1 c2 c3 :
  SFcompare a b = Some c1 -> SFcompare b c = Some c2 ->
  chain c1 c2 = Some c3 -> SFcompare a c = Some c3.
Proof.
  destruct a as [sa|sa| |sa ma ea], b as [sb|sb| |sb mb eb],
      c as [sc|sc| |sc mc ec];
    rewrite ?SFcompare_finite; try (simpl; discriminate);
    simpl; intros E1 E2; injection E1 as <-; injection E2 as <-.
  all: try (destruct sa, sb, sc; simpl; congruence).
  all: try (destruct sa, sb; simpl; congruence).
  all: try (destruct sa, sc; simpl; congruence).
  all: try (destruct sb, sc; simpl; congruence).
  all: try (destruct sa, sb, sc, (lexcmp eb mb ec mc); simpl; congruence).
  all: try (destruct sa, sb, sc, (lexcmp ea ma eb mb); simpl; congruence).
  destruct sa, sb, sc; simpl; intros Hch;
    try (destruct (lexcmp ea ma eb mb); simpl in Hch; congruence);
    try (destruct (lexcmp eb mb ec mc), (lexcmp ea ma eb mb);
         simpl in Hch; congruence).
  - apply chain_opp in Hch. rewrite !CompOpp_involutive in Hch.
    apply lexcmp_trans in Hch. rewrite Hch, CompOpp_involutive. reflexivity.
  - apply lexcmp_trans in Hch. rewrite Hch. reflexivity.
Qed.

Lemma float_ltb_leb (a b : float) :
  (a <? b)%float = true -> (a <=? b)%float = true.
Proof.
  rewrite FloatAxioms.ltb_spec, FloatAxioms.leb_spec. unfold SFltb, SFleb.
  destruct (SFcompare (Prim2SF a) (Prim2SF b)) as [[]|]; congruence.
Qed.

Lemma float_leb_refl (a : float) :
  PrimFloat.is_nan a = false -> (a <=? a)%float = true.
Proof.
  rewrite is_nan_false, FloatAxioms.leb_spec. unfold SFleb.
  intros Hn. rewrite (SFcompare_refl Hn). reflexivity.
Qed.

Lemma float_leb_trans (a b c : float) :
  (a <=? b)%float = true -> (b <=? c)%float = true -> (a <=? c)%float = true.
Proof.
  rewrite !FloatAxioms.leb_spec. unfold SFleb.
  destruct (SFcompare (Prim2SF a) (Prim2SF b)) as [c1|] eqn:E1; [|discriminate].
  destruct (SFcompare (Prim2SF b) (Prim2SF c)) as [c2|] eqn:E2; [|discriminate].
  destruct c1, c2; try discriminate; intros _ _;
    erewrite SFcompare_trans by (try eassumption; reflexivity); reflexivity.
Qed.

Lemma float_ltb_leb_trans (a b c : float) :
  (a <? b)%float = true -> (b <=? c)%float = true -> (a <? c)%float = true.
Proof.
  rewrite !FloatAxioms.ltb_spec, FloatAxioms.leb_spec. unfold SFleb, SFltb.
  destruct (SFcompare (Prim2SF a) (Prim2SF b)) as [c1|] eqn:E1; [|discriminate].
  destruct (SFcompare (Prim2SF b) (Prim2SF c)) as [c2|] eqn:E2; [|discriminate].
  destruct c1, c2; try discriminate; intros _ _;
    erewrite SFcompare_trans by (try eassumption; reflexivity); reflexivity.
Qed.

End FloatOrder.

#[export] Instance PyFloat_order : PyNumberOrder float.
Proof.
  split; simpl.
  - intros a b. unfold ngtb; simpl. apply float_leb_not_gt.
  - intros a b. unfold ngtb; simpl. apply float_not_gt_leb.
  - intros a b. apply float_ltb_not_nan.
  - intros a b. apply float_ltb_leb.
  - intros a. apply float_leb_refl.
  - intros a b c. apply float_leb_trans.
  - intros a b c. apply float_ltb_leb_trans.
Qed.

#[export] Instance PyInt_order : PyNumberOrder Z.
Proof.
  split; unfold ngtb; simpl; intros;
    rewrite ?Z.leb_le, ?Z.ltb_lt, ?Z.ltb_ge in *; auto; lia.
Qed.

#[export] Instance PyInt_exact : PyNumberExact Z.
Proof.
  split; simpl; intros.
  - reflexivity.
  - lia.
  - apply Z.leb_refl.
Qed.

(** ** [numpy.max] is the maximum *)

Section NumpyMax.

Import PrimFloat.

Lemma np_maximum_choice (a b : float) :
  np_maximum a b = a \/ np_maximum a b = b.
Proof.
  unfold np_maximum.
  destruct (is_nan a), (is_nan b), (a <? b)%float; auto.
Qed.

Lemma np_max_member (es : list float) (e : float) :
  In (fold_left np_maximum es e) (e :: es).
Proof.
  revert e. induction es as [|y es IH]; intros e; simpl; [auto|].
  destruct (IH (np_maximum e y)) as [E | Hin]; [|auto].
  rewrite <- E. destruct (np_maximum_choice e y) as [-> | ->]; auto.
Qed.

Lemma np_maximum_upper (a b : float) :
  is_nan a = false -> is_nan b = false ->
  (a <=? np_maximum a b)%float = true /\
  (b <=? np_maximum a b)%float = true /\
  is_nan (np_maximum a b) = false.
Proof.
  intros Ha Hb. unfold np_maximum. rewrite Ha, Hb.
  destruct (a <? b)%float eqn:Hlt.
  - auto using float_ltb_leb, float_leb_refl.
  - split; [auto using float_leb_refl|]. split; [|assumption].
    apply float_not_gt_leb; assumption.
Qed.

Lemma np_max_upper (es : list float) (e : float) :
  (forall x, In x (e :: es) -> is_nan x = false) ->
  forall x, In x (e :: es) -> (x <=? fold_left np_maximum es e)%float = true.
Proof.
  revert e. induction es as [|y es IH]; intros e Hnan x Hin; simpl.
  - destruct Hin as [<- | []]. apply float_leb_refl, Hnan. simpl. auto.
  - destruct (np_maximum_upper e y) as (He & Hy & Hm);
      [apply Hnan; simpl; auto | apply Hnan; simpl; auto |].
    assert (Hnan' : forall z, In z (np_maximum e y :: es) -> is_nan z = false).
    { intros z [<- | Hz]; [assumption | apply Hnan; simpl; auto]. }
    assert (Hmax : (np_maximum e y
                      <=? fold_left np_maximum es (np_maximum e y))%float = true)
      by (apply IH; simpl; auto).
    destruct Hin as [<- | [<- | Hx]].
    + eapply float_leb_trans; eassumption.
    + eapply float_leb_trans; eassumption.
    + apply IH; simpl; auto.
Qed.

(** Without NaN, the maximum exceeds a tolerance exactly when some item
    does. *)
Lemma np_max_exceeds (es : list float) (e tol : float) :
  (forall x, In x (e :: es) -> is_nan x = false) ->
  (tol <? fold_left np_maximum es e)%float = true <->
  exists x, In x (e :: es) /\ (tol <? x)%float = true.
Proof.
  intros Hnan. split.
  - intros Hgt. exists (fold_left np_maximum es e).
    split; [apply np_max_member | exact Hgt].
  - intros (x & Hin & Hgt).
    eapply float_ltb_leb_trans; [exact Hgt|]. apply np_max_upper; assumption.
Qed.

(** [numpy.max] of a list that holds a NaN is a NaN, and a NaN exceeds no
    tolerance. *)
Lemma np_maximum_nan (a b : float) :
  is_nan a = true \/ is_nan b = true -> is_nan (np_maximum a b) = true.
Proof.
  unfold np_maximum. intros [Ha | Hb].
  - rewrite Ha. exact Ha.
  - destruct (is_nan a) eqn:Ha; [exact Ha|]. rewrite Hb. exact Hb.
Qed.

Lemma np_max_nan (es : list float) (e x : float) :
  In x (e :: es) -> is_nan x = true ->
  is_nan (fold_left np_maximum es e) = true.
Proof.
  revert e x. induction es as [|y es IH]; intros e x Hin Hx; simpl.
  - destruct Hin as [-> | []]. exact Hx.
  - destruct Hin as [-> | [-> | Hin]].
    + apply (IH (np_maximum x y) (np_maximum x y)); [left; reflexivity|].
      apply np_maximum_nan. auto.
    + apply (IH (np_maximum e x) (np_maximum e x)); [left; reflexivity|].
      apply np_maximum_nan. auto.
    + apply (IH (np_maximum e y) x); [right; exact Hin | exact Hx].
Qed.

Lemma nan_not_greater (m tol : float) :
  is_nan m = true -> (tol <? m)%float = false.
Proof.
  intros Hm. destruct (tol <? m)%float eqn:Hlt; [|reflexivity].
  destruct (float_ltb_not_nan Hlt) as [_ Hfin]. congruence.
Qed.

(** Comparisons with NaN are false. *)
Lemma float_nan_compare (a b : float) :
  PrimFloat.is_nan a = true \/ PrimFloat.is_nan b = true ->
  (a <? b)%float = false /\ (a <=? b)%float = false.
Proof.
  intros Hnan.
  assert (Hcmp : SFcompare (Prim2SF a) (Prim2SF b) = None).
  { assert (Hsf : forall x, PrimFloat.is_nan x = true -> Prim2SF x = S754_nan).
    { intros x Hx. destruct (Prim2SF x) eqn:E; try reflexivity; exfalso;
        assert (Hne : Prim2SF x <> S754_nan) by (rewrite E; discriminate);
        apply is_nan_false in Hne; congruence. }
    apply SFcompare_nan. destruct Hnan as [Ha | Hb]; auto. }
  rewrite FloatAxioms.ltb_spec, FloatAxioms.leb_spec.
  unfold SFltb, SFleb. rewrite Hcmp. auto.
Qed.

(** The built-in [max] keeps a NaN that comes first, and agrees with
    [numpy.max] on a list without NaN. *)
Lemma py_max_fold_nan_first (es : list float) (e : float) :
  PrimFloat.is_nan e = true ->
  fold_left (fun m y => if ngtb y m then y else m) es e = e.
Proof.
  intros He. induction es as [|y es IH]; simpl; [reflexivity|].
  rewrite (proj1 (float_nan_compare e y (or_introl He))). exact IH.
Qed.

Lemma py_max_fold_np_max (es : list float) (e : float) :
  (forall x, In x (e :: es) -> PrimFloat.is_nan x = false) ->
  fold_left (fun m y => if ngtb y m then y else m) es e
  = fold_left np_maximum es e.
Proof.
  revert e. induction es as [|y es IH]; intros e Hfin; cbn [fold_left];
    [reflexivity|].
  assert (Hstep : (if ngtb y e then y else e) = np_maximum e y).
  { unfold np_maximum, ngtb. simpl.
    rewrite (Hfin e), (Hfin y) by (simpl; auto). reflexivity. }
  rewrite Hstep. apply IH. intros x [<- | Hx].
  - destruct (np_maximum_choice e y) as [-> | ->]; apply Hfin; simpl; auto.
  - apply Hfin. simpl. auto.
Qed.


(** The built-in [max] returns one of the items. *)
Lemma py_max_member (es : list float) (e : float) :
  In (fold_left (fun m y => if ngtb y m then y else m) es e) (e :: es).
Proof.
  revert e. induction es as [|y es IH]; intros e; cbn [fold_left];
    [left; reflexivity|].
  destruct (IH (if ngtb y e then y else e)) as [E | Hin];
    [|right; right; exact Hin].
  rewrite <- E. destruct (ngtb y e); simpl; auto.
Qed.

End NumpyMax.

(** ** [check_step] *)

(** C7: [check_step] is a total function of two integers (a Rocq function
    is, and it has no effect to perform): it is true for interval 0, false
    for every negative interval, and for a positive interval it is the
    test [step mod interval == 0]; at step 0 every positive interval is
    due. *)
Theorem check_step_cases (step : Z) :
  Simutil.check_step step 0 = true /\
  (forall k : positive, Simutil.check_step step (Z.neg k) = false) /\
  (forall k : positive,
      Simutil.check_step step (Z.pos k) = (step mod Z.pos k =? 0)) /\
  (forall k : positive, Simutil.check_step 0 (Z.pos k) = true).
Proof.
  unfold Simutil.check_step.
  split; [reflexivity|]. split; [intros k; reflexivity|].
  split; intros k; simpl; [|reflexivity].
  destruct (step mod Z.pos k =? 0); reflexivity.
Qed.

(** ** [inviscid_sim_timestep] *)

Section Timestep.

Context {N Arr : Type} {HN : PyNumber N} {HI : Simutil.Imports N Arr}.

Variables (discr : Simutil.Discr Arr) (state : Arr) (eos : Simutil.Eos Arr).
Variables (t dt cfl t_final : N) (constant_cfl : bool).

Lemma inviscid_sim_timestep_unfold :
  Simutil.inviscid_sim_timestep discr state t dt cfl eos t_final constant_cfl
  = let mydt := unclipped_dt discr state eos dt cfl constant_cfl in
    if ngtb (nadd t mydt) t_final then nsub t_final t else mydt.
Proof. reflexivity. Qed.

End Timestep.

(** C10: with [constant_cfl] false the result is a function of [t], [dt]
    and [t_final] alone: two calls that agree on these return the same
    step, whatever the discretization, the state, the CFL number, the
    equation of state, and even the imported CFL computation; the step is
    [t_final - t] when [t + dt > t_final] and [dt] otherwise. *)
Theorem inviscid_sim_timestep_fixed_step_ignores_state
    {N Arr : Type} {HN : PyNumber N} (I1 I2 : Simutil.Imports N Arr)
    (discr1 discr2 : Simutil.Discr Arr) (state1 state2 : Arr)
    (cfl1 cfl2 : N) (eos1 eos2 : Simutil.Eos Arr) (t dt t_final : N) :
  Simutil.inviscid_sim_timestep (HI := I1) discr1 state1 t dt cfl1 eos1 t_final false
  = Simutil.inviscid_sim_timestep (HI := I2) discr2 state2 t dt cfl2 eos2 t_final false
  /\
  Simutil.inviscid_sim_timestep (HI := I1) discr1 state1 t dt cfl1 eos1 t_final false
  = if ngtb (nadd t dt) t_final then nsub t_final t else dt.
Proof.
  rewrite !inviscid_sim_timestep_unfold. unfold unclipped_dt.
  split; reflexivity.
Qed.




(** ** [sim_checkpoint] *)

Ltac unfold_effects :=
  unfold bind, ret, emit, raise, np_max, py_max, py_index, trace, result in *.

(** Case analysis on the innermost test the goal still branches on. *)
Ltac case_split :=
  repeat match goal with
         | |- context [match ?x with _ => _ end] =>
             lazymatch x with
             | context [match _ with _ => _ end] => fail
             | _ => destruct x eqn:?; simpl
             end
         end.

Section Checkpoint.

Import PrimFloat.

Context {N Arr : Type} {HN : PyNumber N} {HI : Simutil.Imports N Arr}.

Variables (discr : Simutil.Discr Arr) (eos : Simutil.Eos Arr) (q : Arr).
Variable vizname : string.
Variable exact_soln : option (Simutil.ExactSoln (N := N) (Arr := Arr)).
Variables (step : Z) (t dt cfl : N) (nstatus nviz : Z) (exittol : float).
Variables (constant_cfl : bool) (comm : option Comm).

Let call : M N Arr Z :=
  Simutil.sim_checkpoint discr eos q vizname exact_soln step t dt cfl
    nstatus nviz exittol constant_cfl comm.

(** There is one error for each field of the state. *)
Lemma status_errors_length (exact : Simutil.ExactSoln) :
  List.length (status_errors discr eos q t exact) = Simutil.num_fields q.
Proof.
  unfold status_errors, Simutil.compare_states.
  rewrite length_map, length_seq. reflexivity.
Qed.

Lemma status_errors_nil (exact : Simutil.ExactSoln) :
  status_errors discr eos q t exact = [] <-> Simutil.num_fields q = O.
Proof.
  rewrite <- (status_errors_length exact).
  destruct (status_errors discr eos q t exact); simpl; split;
    intros E; try reflexivity; discriminate.
Qed.

(** A due call on a state without fields raises at [q[0]], before it has
    done anything. *)
Lemma sim_checkpoint_no_fields :
  Simutil.check_step step nstatus || Simutil.check_step step nviz = true ->
  Simutil.num_fields q = O ->
  call = ([], Raised (IndexError
                        "index 0 is out of bounds for axis 0 with size 0")).
Proof.
  intros Hdue Hq. unfold call, Simutil.sim_checkpoint.
  apply orb_true_iff in Hdue.
  replace (negb (Simutil.check_step step nviz)
           && negb (Simutil.check_step step nstatus)) with false
    by (destruct Hdue as [-> | ->]; simpl; rewrite ?andb_false_r; reflexivity).
  unfold Simutil.first_array_context. rewrite Hq. reflexivity.
Qed.

(** The result of a call on a state with fields, branch by branch. *)
Lemma sim_checkpoint_result :
  Simutil.num_fields q <> O ->
  result call =
  if Simutil.check_step step nstatus then
    match exact_soln with
    | Some exact =>
        match status_errors discr eos q t exact with
        | [] => Raised (ValueError
            "zero-size array to reduction operation maximum which has no identity")
        | e :: es =>
            Returned (if (exittol <? fold_left np_maximum es e)%float
                      then 1 else 0)
        end
    | None => Returned 0
    end
  else Returned 0.
Proof.
  intros Hq.
  unfold call, Simutil.sim_checkpoint, Simutil.first_array_context,
    status_errors, thawed_nodes.
  destruct (Simutil.num_fields q) eqn:Hn; [contradiction|].
  unfold_effects.
  destruct (Simutil.check_step step nviz), (Simutil.check_step step nstatus),
    comm, exact_soln; simpl; try reflexivity; case_split; reflexivity.
Qed.

(** The fast path leaves no trace. *)
Lemma sim_checkpoint_not_due :
  Simutil.check_step step nstatus = false ->
  Simutil.check_step step nviz = false ->
  call = ([], Returned 0).
Proof.
  intros Hs Hv. unfold call, Simutil.sim_checkpoint.
  rewrite Hs, Hv. reflexivity.
Qed.

(** Without a status step no error line is logged and the status is not
    1; on a state with fields the status is 0. *)
Lemma sim_checkpoint_no_status :
  Simutil.check_step step nstatus = false ->
  (Simutil.num_fields q <> O -> result call = Returned 0) /\
  result call <> Returned 1 /\
  forall msg, ~ In (EvLogError msg) (trace call).
Proof.
  intros Hs. split; [|split].
  - intros Hq. rewrite (sim_checkpoint_result Hq), Hs. reflexivity.
  - destruct (Simutil.num_fields q) eqn:Hn.
    + destruct (Simutil.check_step step nviz) eqn:Hv.
      * rewrite sim_checkpoint_no_fields;
          [discriminate | rewrite Hv; apply orb_true_r | exact Hn].
      * rewrite (sim_checkpoint_not_due Hs Hv). discriminate.
    + rewrite sim_checkpoint_result, Hs by (rewrite Hn; discriminate).
      discriminate.
  - intros msg. unfold call, Simutil.sim_checkpoint,
      Simutil.first_array_context.
    rewrite Hs. unfold_effects.
    destruct (Simutil.num_fields q), (Simutil.check_step step nviz), comm,
      exact_soln; simpl; intuition discriminate.
Qed.

(** The status line is logged on rank 0 only. *)
Lemma sim_checkpoint_info_rank0 (c : Comm) :
  comm = Some c -> Get_rank c <> 0 ->
  forall msg, ~ In (EvLogInfo msg) (trace call).
Proof.
  intros Hc Hr msg.
  unfold call, Simutil.sim_checkpoint, Simutil.first_array_context.
  rewrite Hc. unfold_effects.
  destruct (Get_rank c) eqn:Hrank; [congruence| |];
    destruct (Simutil.num_fields q), (Simutil.check_step step nviz),
      (Simutil.check_step step nstatus), exact_soln; simpl; case_split; simpl;
      intuition discriminate.
Qed.

(** C1, as the code has it: on a state with at least one field, a status
    step with a reference solution has a [numpy.max] of the per-field
    errors - one of the errors, and where none of them is NaN the largest
    - and the call returns 1 when it exceeds [exittol] and 0 when it does
    not, so it returns rather than raises; without a reference solution,
    and off the status steps, it returns 0. *)
Theorem sim_checkpoint_status :
  Simutil.num_fields q <> O ->
  (forall exact : Simutil.ExactSoln,
      Simutil.check_step step nstatus = true ->
      exact_soln = Some exact ->
      exists maxerr : float,
        result (np_max (N := N) (Arr := Arr) (status_errors discr eos q t exact))
          = Returned maxerr /\
        In maxerr (status_errors discr eos q t exact) /\
        ((forall x, In x (status_errors discr eos q t exact) ->
                    is_nan x = false) ->
         forall x, In x (status_errors discr eos q t exact) ->
                   (x <=? maxerr)%float = true) /\
        ((exittol <? maxerr)%float = true -> result call = Returned 1) /\
        ((exittol <? maxerr)%float = false -> result call = Returned 0)) /\
  (exact_soln = None -> result call = Returned 0) /\
  (Simutil.check_step step nstatus = false -> result call = Returned 0).
Proof.
  intros Hq. rewrite (sim_checkpoint_result Hq). split; [|split].
  - intros exact Hdue Hexact. rewrite Hdue, Hexact.
    destruct (status_errors discr eos q t exact) as [|e es] eqn:Herr.
    + apply status_errors_nil in Herr. contradiction.
    + exists (fold_left np_maximum es e).
      split; [reflexivity|]. split; [apply np_max_member|].
      split; [intros Hnan; apply np_max_upper; exact Hnan|].
      split; intros ->; reflexivity.
  - intros ->. destruct (Simutil.check_step step nstatus); reflexivity.
  - intros ->. reflexivity.
Qed.

(** C6: when neither interval makes the step due, the call returns 0 and
    its trace is empty: the equation of state and the reference solution
    are not evaluated, nothing is logged or written. *)
Theorem sim_checkpoint_fast_path :
  Simutil.check_step step nstatus = false ->
  Simutil.check_step step nviz = false ->
  result call = Returned 0 /\ trace call = [] /\
  (forall x, ~ In (EvEos x) (trace call)) /\
  (forall x y, ~ In (EvExactSoln x y) (trace call)).
Proof.
  intros Hs Hv. rewrite (sim_checkpoint_not_due Hs Hv). simpl. auto.
Qed.

(** C9, as the code has it: off the status steps the call never returns 1
    and logs no error line, whatever the visualization interval, the
    reference solution and the tolerance are; on a state with at least one
    field it returns 0. *)
Theorem sim_checkpoint_viz_only_status :
  Simutil.check_step step nstatus = false ->
  (Simutil.num_fields q <> O -> result call = Returned 0) /\
  result call <> Returned 1 /\
  forall msg, ~ In (EvLogError msg) (trace call).
Proof. exact sim_checkpoint_no_status. Qed.

End Checkpoint.

(** X20: the status by field.  On a state with at least one field whose
    errors are free of NaN, a status step with a reference solution
    returns 1 exactly when the error of some field exceeds the
    tolerance. *)
Lemma checkpoint_status_by_field
    {N Arr : Type} {HI : Simutil.Imports N Arr}
    (discr : Simutil.Discr Arr) (eos : Simutil.Eos Arr) (q : Arr)
    (vizname : string) (exact : Simutil.ExactSoln (N := N) (Arr := Arr))
    (step : Z) (t dt cfl : N) (nstatus nviz : Z) (exittol : float)
    (constant_cfl : bool) (comm : option Comm) :
  Simutil.check_step step nstatus = true ->
  Simutil.num_fields q <> O ->
  (forall x, In x (status_errors discr eos q t exact) ->
             PrimFloat.is_nan x = false) ->
  result (Simutil.sim_checkpoint discr eos q vizname (Some exact) step t dt
            cfl nstatus nviz exittol constant_cfl comm) = Returned 1
  <-> exists x, In x (status_errors discr eos q t exact) /\
                PrimFloat.ltb exittol x = true.
Proof.
  intros Hdue Hq Hnan. rewrite sim_checkpoint_result by exact Hq.
  rewrite Hdue.
  destruct (status_errors discr eos q t exact) as [|e es] eqn:Herr.
  - apply status_errors_nil in Herr. contradiction.
  - rewrite <- (np_max_exceeds exittol Hnan).
    destruct (PrimFloat.ltb exittol (fold_left np_maximum es e)); split;
      intros E; try reflexivity; discriminate.
Qed.

(** C1 at a concrete call: on status step 10 the second field is off by
    0.25; with a tolerance of 0.125 the call returns 1, with a tolerance
    of 0.5 it returns 0. *)
Lemma sim_checkpoint_status_example :
  result (Examples.checkpoint (Some Examples.exact_off) 10 10 (-1) 0.125 0)
    = Returned 1 /\
  result (Examples.checkpoint (Some Examples.exact_off) 10 10 (-1) 0.5 0)
    = Returned 0.
Proof.
  unfold Examples.checkpoint. split.
  - destruct (proj1 (sim_checkpoint_status (HI := Examples.float_imports)
                       (Examples.discr1 [0%float]) Examples.eos_id Examples.q3
                       "pulse" (Some Examples.exact_off) 10 0.5%float
                       0.25%float 1%float 10 (-1) 0.125%float false
                       (Some (MkComm 0)) ltac:(discriminate))
                Examples.exact_off eq_refl eq_refl)
      as (maxerr & Hmax & _ & _ & Hone & _).
    injection Hmax as <-. apply Hone. reflexivity.
  - destruct (proj1 (sim_checkpoint_status (HI := Examples.float_imports)
                       (Examples.discr1 [0%float]) Examples.eos_id Examples.q3
                       "pulse" (Some Examples.exact_off) 10 0.5%float
                       0.25%float 1%float 10 (-1) 0.5%float false
                       (Some (MkComm 0)) ltac:(discriminate))
                Examples.exact_off eq_refl eq_refl)
      as (maxerr & Hmax & _ & _ & _ & Hzero).
    injection Hmax as <-. apply Hzero. reflexivity.
Defined.

(** C1 as stated fails on a state without fields: on status step 10 with
    a reference solution the call raises [IndexError] at [q[0]]; it
    returns neither 1 nor 0. *)
Lemma sim_checkpoint_raises_without_fields :
  Simutil.check_step 10 10 = true /\
  exists e,
    Simutil.sim_checkpoint (HI := Examples.float_imports)
      (Examples.discr1 [0%float]) Examples.eos_id [] "pulse"
      (Some Examples.exact_off) 10 0.5%float 0.25%float 1%float 10 (-1)
      0.125%float false (Some (MkComm 0))
    = ([], Raised e) /\
    exn_class e = "IndexError"%string.
Proof. split; [reflexivity|]. eexists. split; reflexivity. Qed.

(** C6 at a concrete call: step 3 with intervals 10 and 5. *)
Lemma sim_checkpoint_fast_path_example :
  Examples.checkpoint (Some Examples.exact_off) 3 10 5 0.125 0
    = ([], Returned 0).
Proof.
  unfold Examples.checkpoint.
  destruct (sim_checkpoint_fast_path (HI := Examples.float_imports)
              (Examples.discr1 [0%float]) Examples.eos_id Examples.q3 "pulse"
              (Some Examples.exact_off) 3 0.5%float 0.25%float 1%float 10 5
              0.125%float false (Some (MkComm 0)))
    as (Hr & Ht & _); [reflexivity | reflexivity |].
  unfold result, trace in *.
  destruct (Simutil.sim_checkpoint _ _ _ _ _ _ _ _ _ _ _ _ _ _) as [tr r].
  simpl in *. subst. reflexivity.
Defined.

(** C9 at a concrete call: step 5 is a visualization step and not a
    status step; the reference solution is off by 0.25, beyond the
    tolerance, and the call returns 0. *)
Lemma sim_checkpoint_viz_only_example :
  Simutil.check_step 5 5 = true /\
  result (Examples.checkpoint (Some Examples.exact_off) 5 10 5 0.125 0)
    = Returned 0.
Proof.
  split; [reflexivity|]. unfold Examples.checkpoint.
  apply sim_checkpoint_viz_only_status; [reflexivity | discriminate].
Defined.

(** C9 as stated fails on a state without fields: step 5 is a
    visualization step and no status step, and the call raises
    [IndexError] at [q[0]] instead of returning 0. *)
Lemma sim_checkpoint_viz_only_raises_without_fields :
  Simutil.check_step 5 10 = false /\
  Simutil.check_step 5 5 = true /\
  exists e,
    Simutil.sim_checkpoint (HI := Examples.float_imports)
      (Examples.discr1 [0%float]) Examples.eos_id [] "pulse"
      (Some Examples.exact_off) 5 0.5%float 0.25%float 1%float 10 5
      0.125%float false (Some (MkComm 0))
    = ([], Raised e) /\
    exn_class e = "IndexError"%string.
Proof. repeat split. eexists. split; reflexivity. Qed.

(** C8 at the failing input: on rank 1, a status step whose error exceeds
    the tolerance logs the error line; the status line is not logged. *)
Theorem sim_checkpoint_error_line_on_rank_1 :
  Examples.checkpoint (Some Examples.exact_off) 10 10 (-1) 0.125 1
  = ([EvGetRank (MkComm 1); EvEos Examples.q3; EvExactSoln 0.5%float [0%float];
      EvLogError "Solution failed to follow expected result."],
     Returned 1).
Proof. reflexivity. Qed.

(** ** Sequencing *)

Section Bind.

Context {N Arr A B : Type}.

Lemma bind_returned (m : M N Arr A) (k : A -> M N Arr B) tr (b : B) :
  bind m k = (tr, Returned b) ->
  exists tr1 a tr2,
    m = (tr1, Returned a) /\ k a = (tr2, Returned b) /\ tr = tr1 ++ tr2.
Proof.
  unfold bind. destruct m as [tr1 [a | e |]]; try discriminate.
  destruct (k a) as [tr2 r] eqn:Hk. intros E. injection E as <- ->.
  exists tr1, a, tr2. auto.
Qed.

Lemma bind_raised (m : M N Arr A) (k : A -> M N Arr B) tr (e : exn N Arr) :
  bind m k = (tr, Raised e) ->
  m = (tr, Raised e) \/
  exists tr1 a tr2,
    m = (tr1, Returned a) /\ k a = (tr2, Raised e) /\ tr = tr1 ++ tr2.
Proof.
  unfold bind. destruct m as [tr1 [a | e' |]]; try discriminate.
  - destruct (k a) as [tr2 r] eqn:Hk. intros E. injection E as <- ->.
    right. exists tr1, a, tr2. auto.
  - intros E. injection E as <- <-. left. reflexivity.
Qed.

Lemma bind_trace_returned (m : M N Arr A) (k : A -> M N Arr B) tr1 (a : A) :
  m = (tr1, Returned a) -> bind m k = (tr1 ++ trace (k a), result (k a)).
Proof. intros ->. unfold bind, trace, result. destruct (k a). reflexivity. Qed.

End Bind.

(** ** [euler_flow_stepper] *)

Section Stepper.

Import Steppers.

Context {Arr Bnd : Type} {HI : Imports Arr Bnd}.
Variable parameters : Parameters Arr Bnd.

(** The file name: [str.format] rejects the case name, or the name is
    what it makes of the case name, followed by the rank and the step in
    four digits; a case name without braces is kept as it is. *)
Lemma format_name_cases (rank istep : Z) :
  (exists class msg,
      format_name parameters rank istep
      = ([], Raised (MkExn class [VStr msg])) /\
      has_braces (p_casename parameters) = true) \/
  (exists prefix,
      format_name parameters rank istep
      = ([], Returned (prefix ++ "-" ++ format_04d rank ++ "-"
                         ++ format_04d istep ++ ".vtu")%string) /\
      (has_braces (p_casename parameters) = false ->
       prefix = p_casename parameters)).
Proof.
  unfold format_name.
  destruct (has_braces (p_casename parameters)) eqn:Hb.
  - destruct (format_braces (p_casename parameters) rank istep)
      as [[class msg] | prefix].
    + left. exists class, msg. split; reflexivity.
    + right. exists prefix. split; [reflexivity | discriminate].
  - right. exists (p_casename parameters). split; reflexivity.
Qed.

(** [write_soln] fails on [mindv[0]], [mindv[1]] before anything is
    logged, or it logs the status text and fails on the file name, or it
    logs the status text, writes the file of the current step and returns
    the per-field errors. *)
Lemma write_soln_cases (l : locals Arr) :
  (exists e, write_soln parameters l = ([], Raised e) /\
             e = IndexError "list index out of range" /\
             (List.length (eos_call (p_eos parameters) (fields l)) < 2)%nat) \/
  (exists msg class m,
      write_soln parameters l = ([EvLogInfo msg], Raised (MkExn class [VStr m])) /\
      (2 <= List.length (eos_call (p_eos parameters) (fields l)))%nat /\
      has_braces (p_casename parameters) = true) \/
  (exists msg prefix,
      write_soln parameters l
      = ([EvLogInfo msg;
          EvWriteVtk (prefix ++ "-" ++ format_04d 0 ++ "-"
                        ++ format_04d (istep l) ++ ".vtu")%string
                     (dump_fields parameters l)],
         Returned (field_errors parameters l)) /\
      (2 <= List.length (eos_call (p_eos parameters) (fields l)))%nat /\
      (has_braces (p_casename parameters) = false ->
       prefix = p_casename parameters)).
Proof.
  unfold write_soln, dump_fields, field_errors.
  destruct (eos_call (p_eos parameters) (fields l)) as [|d0 [|d1 ds]].
  - left. eexists. repeat split. simpl. lia.
  - left. eexists. repeat split. simpl. lia.
  - right.
    destruct (format_name_cases 0 (istep l))
      as [(class & m & Hf & Hb) | (prefix & Hf & Hp)]; rewrite Hf.
    + left. eexists. exists class, m.
      split; [reflexivity|]. split; [simpl; lia | exact Hb].
    + right. eexists. exists prefix.
      split; [reflexivity|]. split; [simpl; lia | exact Hp].
Qed.

(** With a case name without braces the file is [dump_name]. *)
Lemma write_soln_plain (l : locals Arr) :
  has_braces (p_casename parameters) = false ->
  (exists e, write_soln parameters l = ([], Raised e) /\
             e = IndexError "list index out of range" /\
             (List.length (eos_call (p_eos parameters) (fields l)) < 2)%nat) \/
  (exists msg,
      write_soln parameters l
      = ([EvLogInfo msg;
          EvWriteVtk (dump_name parameters l) (dump_fields parameters l)],
         Returned (field_errors parameters l)) /\
      (2 <= List.length (eos_call (p_eos parameters) (fields l)))%nat).
Proof.
  intros Hb.
  destruct (write_soln_cases l)
    as [H | [(msg & class & m & _ & _ & Hb') | (msg & prefix & Hw & Hlen & Hp)]].
  - left. exact H.
  - congruence.
  - right. exists msg. rewrite (Hp Hb) in Hw. split; [exact Hw | exact Hlen].
Qed.

(** Every exception of [write_soln] carries one string. *)
Lemma write_soln_raised (l : locals Arr) tr e :
  write_soln parameters l = (tr, Raised e) ->
  exists msg, exn_args e = [VStr msg].
Proof.
  destruct (write_soln_cases l)
    as [(e' & Hw & -> & _) | [(msg & class & m & Hw & _) | (msg & p & Hw & _)]];
    rewrite Hw; intros E; try discriminate; injection E as _ <-;
    eexists; reflexivity.
Qed.

Lemma write_soln_not_out_of_fuel (l : locals Arr) tr :
  write_soln parameters l <> (tr, OutOfFuel).
Proof.
  destruct (write_soln_cases l)
    as [(e' & Hw & _) | [(msg & class & m & Hw & _) | (msg & p & Hw & _)]];
    rewrite Hw; discriminate.
Qed.

(** The first statement of the loop body raises on a zero divisor and
    otherwise leaves [selected]. *)
Lemma select_dt_cases (l : locals Arr) :
  select_dt parameters l
  = if divides_by_zero parameters l
    then ([], Raised (ZeroDivisionError "float division by zero"))
    else ([], Returned (selected parameters l)).
Proof.
  unfold select_dt, divides_by_zero, selected, py_truediv.
  destruct (p_constantcfl parameters); simpl; [reflexivity|].
  destruct (sdt l =? 0)%float; reflexivity.
Qed.

(** The loop body after its first statement. *)
Lemma loop_body_selected (l : locals Arr) :
  divides_by_zero parameters l = false ->
  loop_body parameters l
  = ((if p_nstatus parameters >? 0
      then if istep (selected parameters l) mod p_nstatus parameters =? 0
           then write_soln parameters (selected parameters l) ;; ret tt
           else ret tt
      else ret tt) ;;
     ret (advance parameters (selected parameters l))).
Proof.
  intros Hz. unfold loop_body. rewrite select_dt_cases, Hz.
  unfold bind at 1.
  match goal with |- (let (_, _) := ?m in _) = _ => destruct m as [tr r] end.
  reflexivity.
Qed.

Lemma loop_body_divides_by_zero (l : locals Arr) :
  divides_by_zero parameters l = true ->
  loop_body parameters l
  = ([], Raised (ZeroDivisionError "float division by zero")).
Proof.
  intros Hz. unfold loop_body. rewrite select_dt_cases, Hz. reflexivity.
Qed.

(** A pass through the loop body that completes has not divided by zero
    and leaves the variables that [advance] computes from the ones
    [select_dt] sets. *)
Lemma loop_body_returned (l l' : locals Arr) tr :
  loop_body parameters l = (tr, Returned l') ->
  l' = advance parameters (selected parameters l).
Proof.
  destruct (divides_by_zero parameters l) eqn:Hz.
  - rewrite (loop_body_divides_by_zero _ Hz). discriminate.
  - rewrite (loop_body_selected _ Hz). intros E.
    apply bind_returned in E as (tr1 & u & tr2 & _ & E & _).
    unfold ret in E. congruence.
Qed.

Lemma loop_body_returned_divisor (l l' : locals Arr) tr :
  loop_body parameters l = (tr, Returned l') ->
  divides_by_zero parameters l = false.
Proof.
  destruct (divides_by_zero parameters l) eqn:Hz; [|reflexivity].
  rewrite (loop_body_divides_by_zero _ Hz). discriminate.
Qed.

(** Every exception of the loop body carries one string. *)
Lemma loop_body_raised (l : locals Arr) tr e :
  loop_body parameters l = (tr, Raised e) ->
  exists msg, exn_args e = [VStr msg].
Proof.
  destruct (divides_by_zero parameters l) eqn:Hz.
  - rewrite (loop_body_divides_by_zero _ Hz). intros E. injection E as _ <-.
    eexists. reflexivity.
  - rewrite (loop_body_selected _ Hz). intros E.
    apply bind_raised in E as [E | (tr1 & u & tr2 & _ & E & _)];
      [|discriminate].
    destruct (p_nstatus parameters >? 0); [|discriminate].
    destruct (istep (selected parameters l) mod p_nstatus parameters =? 0);
      [|discriminate].
    apply bind_raised in E as [E | (tr1 & u & tr2 & _ & E & _)];
      [|discriminate].
    eapply write_soln_raised, E.
Qed.

Lemma advance_clock (l : locals Arr) :
  istep (advance parameters l) = istep l + 1 /\
  t (advance parameters l) = (t l + dt l)%float /\
  dt (advance parameters l) = dt l.
Proof. unfold advance. simpl. auto. Qed.

Lemma selected_clock (l : locals Arr) :
  istep (selected parameters l) = istep l /\
  t (selected parameters l) = t l /\
  dt (selected parameters l)
  = (if p_constantcfl parameters then sdt l else dt l).
Proof. unfold selected. destruct (p_constantcfl parameters); simpl; auto. Qed.

(** Every exception of the loop carries one string. *)
Lemma stepping_loop_raised (fuel : nat) (l : locals Arr) tr e :
  stepping_loop parameters fuel l = (tr, Raised e) ->
  exists msg, exn_args e = [VStr msg].
Proof.
  revert l tr. induction fuel as [|fuel IH]; intros l tr; simpl; [discriminate|].
  destruct (t l <? p_tfinal parameters)%float; [|discriminate].
  intros E. apply bind_raised in E as [E | (tr1 & l1 & tr2 & _ & E & _)].
  - eapply loop_body_raised, E.
  - eapply IH, E.
Qed.

(** What the loop leaves when it exits. *)
Lemma stepping_loop_returned (fuel : nat) (l l' : locals Arr) tr :
  stepping_loop parameters fuel l = (tr, Returned l') ->
  (t l' <? p_tfinal parameters)%float = false /\
  exists n : nat,
    (n < fuel)%nat /\ istep l' = istep l + Z.of_nat n /\
    (n = 0%nat -> l' = l) /\
    (n <> 0%nat ->
     exists prev : locals Arr,
       (t prev <? p_tfinal parameters)%float = true /\
       t l' = (t prev + dt l')%float /\ istep l' = istep prev + 1).
Proof.
  revert l tr. induction fuel as [|fuel IH]; intros l tr; simpl; [discriminate|].
  destruct (t l <? p_tfinal parameters)%float eqn:Hcond.
  - intros E. apply bind_returned in E as (tr1 & l1 & tr2 & Hbody & Hrest & _).
    apply loop_body_returned in Hbody.
    destruct (advance_clock (selected parameters l)) as (Hi & Ht & Hd).
    destruct (selected_clock l) as (Hi0 & Ht0 & _).
    rewrite <- Hbody in Hi, Ht, Hd.
    destruct (IH _ _ Hrest) as (Hexit & n & Hn & Hstep & Hzero & Hlast).
    split; [exact Hexit|]. exists (S n). repeat split.
    + lia.
    + rewrite Hstep, Hi, Hi0. lia.
    + discriminate.
    + intros _. destruct n as [|n].
      * rewrite (Hzero eq_refl). exists l. repeat split.
        -- exact Hcond.
        -- rewrite Ht, Ht0, Hd. reflexivity.
        -- rewrite Hi, Hi0. reflexivity.
      * apply Hlast. discriminate.
  - intros E. injection E as _ <-. split; [exact Hcond|].
    exists 0%nat. split; [lia|]. split; [lia|]. split; [reflexivity|].
    intros Hn. contradiction.
Qed.

(** Fuel only bounds the run: a loop that ends with some fuel ends the
    same way with more. *)
Lemma stepping_loop_more_fuel (fuel extra : nat) (l : locals Arr) tr r :
  stepping_loop parameters fuel l = (tr, r) ->
  r <> OutOfFuel ->
  stepping_loop parameters (fuel + extra) l = (tr, r).
Proof.
  revert l tr. induction fuel as [|fuel IH]; intros l tr; simpl.
  - intros E Hr. injection E as _ <-. contradiction.
  - destruct (t l <? p_tfinal parameters)%float; [|trivial].
    unfold bind.
    destruct (loop_body parameters l) as [tr1 [l1 | e |]]; try trivial.
    destruct (stepping_loop parameters fuel l1) as [tr2 r2] eqn:Hrest.
    intros E Hr. injection E as <- <-.
    rewrite (IH _ _ Hrest Hr). reflexivity.
Qed.

(** C2, as the code has it: each completed pass through the loop body
    adds 1 to [istep] and the step size it used to [t], that step size
    being [sdt] under a constant CFL number and [dt] otherwise; the step
    size is never clipped: when the loop exits after [n] passes, [t] is
    not below [t_final], [istep] has grown by [n], and the last pass
    started below [t_final] and added its whole step size. *)
Theorem stepping_loop_clock :
  (forall (l l' : locals Arr) tr,
      loop_body parameters l = (tr, Returned l') ->
      istep l' = istep l + 1 /\
      dt l' = (if p_constantcfl parameters then sdt l else dt l) /\
      t l' = (t l + dt l')%float) /\
  (forall (fuel : nat) (l l' : locals Arr) tr,
      stepping_loop parameters fuel l = (tr, Returned l') ->
      (t l' <? p_tfinal parameters)%float = false /\
      exists n : nat,
        (n < fuel)%nat /\ istep l' = istep l + Z.of_nat n /\
        (n = 0%nat -> l' = l) /\
        (n <> 0%nat ->
         exists prev : locals Arr,
           (t prev <? p_tfinal parameters)%float = true /\
           t l' = (t prev + dt l')%float /\ istep l' = istep prev + 1)).
Proof.
  split.
  - intros l l' tr Hbody. apply loop_body_returned in Hbody. subst l'.
    destruct (advance_clock (selected parameters l)) as (Hi & Ht & Hd).
    destruct (selected_clock l) as (Hi0 & Ht0 & Hd0).
    rewrite Hi, Ht, Hd, Hi0, Ht0, Hd0. auto.
  - intros fuel l l' tr. apply stepping_loop_returned.
Qed.

(** The final error, by the two ways the code computes it. *)
Lemma final_error_with_status (l : locals Arr) :
  p_nstatus parameters > 0 ->
  (2 <= List.length (eos_call (p_eos parameters) (fields l)))%nat ->
  has_braces (p_casename parameters) = false ->
  exists msg,
    trace (final_error parameters l)
    = [EvLogInfo "Writing final dump."; EvLogInfo msg;
       EvWriteVtk (dump_name parameters l) (dump_fields parameters l)] /\
    result (final_error parameters l)
    = result (py_max (N := float) (Arr := Arr) (field_errors parameters l)).
Proof.
  intros Hn Hdv Hb. apply Z.gtb_gt in Hn. unfold final_error. rewrite Hn.
  destruct (write_soln_plain l Hb) as [(e & _ & _ & Hlt) | (msg & Hw & _)];
    [lia|].
  exists msg. rewrite Hw. unfold_effects.
  destruct (field_errors parameters l); simpl; auto.
Qed.

Lemma final_error_without_status (l : locals Arr) :
  p_nstatus parameters <= 0 ->
  final_error parameters l = np_max (field_errors parameters l) /\
  trace (final_error parameters l) = [].
Proof.
  intros Hn. assert (Hg : (p_nstatus parameters >? 0) = false)
    by (rewrite Z.gtb_ltb; apply Z.ltb_ge; lia).
  unfold final_error. rewrite Hg. split; [reflexivity|].
  unfold field_errors, expected_result. unfold_effects.
  match goal with |- fst (match ?x with _ => _ end) = _ => destruct x end;
    reflexivity.
Qed.

(** [finish] after the final error: the exception or the return value. *)
Lemma finish_returned_error (l : locals Arr) tr maxerr :
  final_error parameters l = (tr, Returned maxerr) ->
  finish parameters l
  = if (p_exittol parameters <? maxerr)%float
    then (tr, Raised (ValueError "Solution failed to follow expected result."))
    else (tr ++ [EvLogInfo "Goodbye!"], Returned (VNum maxerr)).
Proof.
  intros E. unfold finish. rewrite E. unfold_effects.
  destruct (p_exittol parameters <? maxerr)%float; simpl;
    rewrite ?app_nil_r; reflexivity.
Qed.

Lemma finish_raised_error (l : locals Arr) tr e :
  final_error parameters l = (tr, Raised e) ->
  finish parameters l = (tr, Raised e).
Proof. intros E. unfold finish. rewrite E. reflexivity. Qed.

Lemma final_error_not_out_of_fuel (l : locals Arr) tr :
  final_error parameters l <> (tr, OutOfFuel).
Proof.
  unfold final_error. destruct (p_nstatus parameters >? 0).
  - destruct (write_soln_cases l)
      as [(e & Hw & _) | [(msg & c & m & Hw & _) | (msg & pre & Hw & _)]];
      rewrite Hw; unfold_effects; simpl; try discriminate.
    destruct (field_errors parameters l); discriminate.
  - unfold_effects.
    match goal with |- match ?x with _ => _ end <> _ => destruct x end;
      discriminate.
Qed.

(** Every exception of [final_error] carries one string. *)
Lemma final_error_raised (l : locals Arr) tr e :
  final_error parameters l = (tr, Raised e) ->
  exists msg, exn_args e = [VStr msg].
Proof.
  unfold final_error. destruct (p_nstatus parameters >? 0).
  - destruct (write_soln_cases l)
      as [(e' & Hw & -> & _) | [(msg & c & m & Hw & _) | (msg & pre & Hw & _)]];
      rewrite Hw; unfold_effects; simpl.
    + intros E. injection E as _ <-. eexists. reflexivity.
    + intros E. injection E as _ <-. eexists. reflexivity.
    + destruct (field_errors parameters l); intros E; [|discriminate].
      injection E as _ <-. eexists. reflexivity.
  - unfold_effects.
    match goal with |- match ?x with _ => _ end = _ -> _ => destruct x end;
      intros E; [|discriminate].
    injection E as _ <-. eexists. reflexivity.
Qed.

(** The final error, when there is one, is the error of a field: what
    [numpy.max] or the built-in [max] returns for the per-field errors,
    and where none of them is NaN the largest of them. *)
Lemma final_error_returned (l : locals Arr) tr (maxerr : float) :
  final_error parameters l = (tr, Returned maxerr) ->
  (p_nstatus parameters <= 0 ->
   result (np_max (N := float) (Arr := Arr) (field_errors parameters l))
   = Returned maxerr) /\
  (p_nstatus parameters > 0 ->
   result (py_max (N := float) (Arr := Arr) (field_errors parameters l))
   = Returned maxerr) /\
  In maxerr (field_errors parameters l) /\
  ((forall x, In x (field_errors parameters l) -> PrimFloat.is_nan x = false) ->
   forall x, In x (field_errors parameters l) -> (x <=? maxerr)%float = true).
Proof.
  intros E.
  assert (Hmax : (p_nstatus parameters <= 0 /\
                  result (np_max (N := float) (Arr := Arr)
                            (field_errors parameters l)) = Returned maxerr) \/
                 (p_nstatus parameters > 0 /\
                  result (py_max (N := float) (Arr := Arr)
                            (field_errors parameters l)) = Returned maxerr)).
  { unfold final_error in E. destruct (p_nstatus parameters >? 0) eqn:Hn.
    - apply bind_returned in E as (tr1 & u & tr2 & _ & E & _).
      apply bind_returned in E as (tr3 & errs & tr4 & Hw & E & _).
      destruct (write_soln_cases l)
        as [(e' & Hw' & _) | [(msg & c & m & Hw' & _) | (msg & pre & Hw' & _)]];
        rewrite Hw' in Hw; try discriminate.
      injection Hw as _ <-. right. rewrite E.
      split; [apply Z.gtb_gt; exact Hn | reflexivity].
    - left. unfold field_errors, expected_result. rewrite E.
      split; [|reflexivity].
      rewrite Z.gtb_ltb in Hn. apply Z.ltb_ge in Hn. exact Hn. }
  split; [intros Hle; destruct Hmax as [[_ H] | [Hgt _]]; [exact H | lia]|].
  split; [intros Hgt; destruct Hmax as [[Hle _] | [_ H]]; [lia | exact H]|].
  destruct (field_errors parameters l) as [|e es];
    [destruct Hmax as [[_ H] | [_ H]]; discriminate|].
  destruct Hmax as [[_ H] | [_ H]]; unfold np_max, py_max, ret, result in H;
    cbn [snd] in H; injection H as <-.
  - split; [apply np_max_member | intros Hfin; apply np_max_upper; exact Hfin].
  - split; [apply py_max_member|]. intros Hfin.
    change (forall x, In x (e :: es) ->
              (x <=? fold_left (fun m y => if ngtb y m then y else m) es e)%float
              = true).
    rewrite (py_max_fold_np_max Hfin). apply np_max_upper. exact Hfin.
Qed.

(** A run that enters the loop and leaves it: the trace and the result
    are those of the loop followed by those of [finish]. *)
Lemma euler_flow_stepper_run (fuel : nat) (l : locals Arr) tr :
  (p_tfinal parameters <=? p_time parameters)%float = false ->
  stepping_loop parameters fuel (initial_locals parameters) = (tr, Returned l) ->
  euler_flow_stepper parameters fuel
  = (EvLogInfo (init_message parameters) :: tr ++ trace (finish parameters l),
     result (finish parameters l)).
Proof.
  intros Hc Hl. unfold euler_flow_stepper. rewrite Hc.
  unfold bind at 1. unfold emit.
  rewrite (bind_trace_returned _ Hl). reflexivity.
Qed.

(** The same for the whole function: its trace and its result do not
    depend on the fuel, once there is enough of it. *)
Lemma euler_flow_stepper_more_fuel (fuel extra : nat) tr r :
  euler_flow_stepper parameters fuel = (tr, r) ->
  r <> OutOfFuel ->
  euler_flow_stepper parameters (fuel + extra) = (tr, r).
Proof.
  unfold euler_flow_stepper.
  destruct (p_tfinal parameters <=? p_time parameters)%float; [trivial|].
  unfold bind at 1 3, emit.
  destruct (stepping_loop parameters fuel (initial_locals parameters))
    as [tr1 r1] eqn:Hloop.
  assert (Hmore : r1 <> OutOfFuel ->
                  stepping_loop parameters (fuel + extra)
                    (initial_locals parameters) = (tr1, r1))
    by (apply stepping_loop_more_fuel; exact Hloop).
  destruct r1 as [l | e |].
  - rewrite Hmore by discriminate. trivial.
  - rewrite Hmore by discriminate. trivial.
  - simpl. intros E Hr. injection E as _ <-. contradiction.
Qed.

(** The result of a run that enters the loop, by how the loop ends. *)
Lemma euler_flow_stepper_result_cases (fuel : nat) :
  (p_tfinal parameters <=? p_time parameters)%float = false ->
  result (euler_flow_stepper parameters fuel)
  = match result (stepping_loop parameters fuel (initial_locals parameters)) with
    | Returned l => result (finish parameters l)
    | Raised e => Raised e
    | OutOfFuel => OutOfFuel
    end.
Proof.
  intros Hc.
  destruct (stepping_loop parameters fuel (initial_locals parameters))
    as [tr [l | e |]] eqn:Hl.
  - rewrite (euler_flow_stepper_run _ Hc Hl). reflexivity.
  - unfold euler_flow_stepper. rewrite Hc, Hl. reflexivity.
  - unfold euler_flow_stepper. rewrite Hc, Hl. reflexivity.
Qed.

(** The result of [finish], by how [final_error] ends. *)
Lemma finish_result_cases (l : locals Arr) :
  result (finish parameters l)
  = match result (final_error parameters l) with
    | Returned maxerr =>
        if (p_exittol parameters <? maxerr)%float
        then Raised (ValueError "Solution failed to follow expected result.")
        else Returned (VNum maxerr)
    | Raised e => Raised e
    | OutOfFuel => OutOfFuel
    end.
Proof.
  destruct (final_error parameters l) as [tr [maxerr | e |]] eqn:He.
  - rewrite (finish_returned_error _ He). simpl.
    destruct (p_exittol parameters <? maxerr)%float; reflexivity.
  - rewrite (finish_raised_error _ He). reflexivity.
  - exfalso. eapply final_error_not_out_of_fuel, He.
Qed.


(** C5, as the code has it: when [t_final <= t] at entry the function
    returns 0.0 at once; otherwise, when the loop exits and the final
    error [maxerr] is computed, it returns the number [maxerr] if
    [maxerr] is within [exittol] and raises [ValueError] with the one
    message "Solution failed to follow expected result." if not.  That
    [maxerr] is the error of one of the fields of the final state: what
    [numpy.max] makes of the per-field errors without a status interval
    and what the built-in [max] makes of them with one, and the largest of
    them where none is NaN.  Every value the function returns is a number
    and every exception it raises carries one string: neither holds a
    step, a time or a state. *)
Theorem euler_flow_stepper_result (fuel : nat) :
  ((p_tfinal parameters <=? p_time parameters)%float = true ->
   euler_flow_stepper parameters fuel = ([], Returned (VNum 0%float))) /\
  (forall v, result (euler_flow_stepper parameters fuel) = Returned v ->
             exists x : float, v = VNum x) /\
  (forall e, result (euler_flow_stepper parameters fuel) = Raised e ->
             exists msg, exn_args e = [VStr msg]) /\
  (forall (l : locals Arr) tr tr' (maxerr : float),
      (p_tfinal parameters <=? p_time parameters)%float = false ->
      stepping_loop parameters fuel (initial_locals parameters)
        = (tr, Returned l) ->
      final_error parameters l = (tr', Returned maxerr) ->
      result (euler_flow_stepper parameters fuel)
      = (if (p_exittol parameters <? maxerr)%float
         then Raised (ValueError "Solution failed to follow expected result.")
         else Returned (VNum maxerr)) /\
      (p_nstatus parameters <= 0 ->
       result (np_max (N := float) (Arr := Arr) (field_errors parameters l))
       = Returned maxerr) /\
      (p_nstatus parameters > 0 ->
       result (py_max (N := float) (Arr := Arr) (field_errors parameters l))
       = Returned maxerr) /\
      In maxerr (field_errors parameters l) /\
      ((forall x, In x (field_errors parameters l) ->
                  PrimFloat.is_nan x = false) ->
       forall x, In x (field_errors parameters l) ->
                 (x <=? maxerr)%float = true)).
Proof.
  assert (Hearly : (p_tfinal parameters <=? p_time parameters)%float = true ->
                   euler_flow_stepper parameters fuel
                   = ([], Returned (VNum 0%float))).
  { intros Hc. unfold euler_flow_stepper. rewrite Hc. reflexivity. }
  split; [exact Hearly|]. split; [|split].
  - intros v. destruct (p_tfinal parameters <=? p_time parameters)%float eqn:Hc.
    + rewrite (Hearly eq_refl). simpl. intros E. injection E as <-. eauto.
    + rewrite (euler_flow_stepper_result_cases _ Hc).
      destruct (result (stepping_loop _ _ _)) as [l | e |]; try discriminate.
      rewrite finish_result_cases.
      destruct (result (final_error _ _)) as [maxerr | e |]; try discriminate.
      destruct (p_exittol parameters <? maxerr)%float; try discriminate.
      intros E. injection E as <-. eauto.
  - intros e. destruct (p_tfinal parameters <=? p_time parameters)%float eqn:Hc.
    + rewrite (Hearly eq_refl). discriminate.
    + rewrite (euler_flow_stepper_result_cases _ Hc).
      destruct (stepping_loop _ _ _) as [tr [l | e' |]] eqn:Hl; simpl;
        try discriminate.
      * rewrite finish_result_cases.
        destruct (final_error _ _) as [tr' [maxerr | e' |]] eqn:He; simpl;
          try discriminate.
        -- destruct (p_exittol parameters <? maxerr)%float; try discriminate.
           intros E. injection E as <-. eexists. reflexivity.
        -- intros E. injection E as <-. exact (final_error_raised _ He).
      * intros E. injection E as <-. exact (stepping_loop_raised _ _ Hl).
  - intros l tr tr' maxerr Hc Hl He.
    split; [|exact (final_error_returned _ He)].
    rewrite (euler_flow_stepper_result_cases _ Hc), Hl. simpl.
    rewrite finish_result_cases, He. reflexivity.
Qed.

End Stepper.

(** C2 at a concrete run: from 0 to 1 in steps of 0.75 the loop makes two
    passes and exits with the variables [ode_final]. *)
Lemma stepping_loop_clock_example :
  let p := Examples.ode_parameters 1 0 0.125 in
  let l' := Examples.ode_final in
  (Steppers.t l' <? Steppers.p_tfinal p)%float = false /\
  exists n : nat,
    (n < 3)%nat /\ Steppers.istep l' = 0 + Z.of_nat n /\
    (n = 0%nat -> l' = Steppers.initial_locals (HI := Examples.ode_imports) p) /\
    (n <> 0%nat ->
     exists prev : Steppers.locals float,
       (Steppers.t prev <? Steppers.p_tfinal p)%float = true /\
       Steppers.t l' = (Steppers.t prev + Steppers.dt l')%float /\
       Steppers.istep l' = Steppers.istep prev + 1).
Proof.
  intros p l'.
  apply (proj2 (stepping_loop_clock (HI := Examples.ode_imports) p) 3%nat
           (Steppers.initial_locals (HI := Examples.ode_imports) p) l' []).
  reflexivity.
Defined.

(** C2 as stated fails: in that run the last step is not clipped; the
    loop exits at [t = 1.5], half a unit beyond [t_final = 1], where a
    clipped last step of 0.25 would have landed on it. *)
Lemma stepping_loop_overshoots_t_final :
  let p := Examples.ode_parameters 1 0 0.125 in
  Steppers.stepping_loop (HI := Examples.ode_imports) p 3
    (Steppers.initial_locals (HI := Examples.ode_imports) p)
  = ([], Returned Examples.ode_final) /\
  Steppers.t Examples.ode_final = 1.5%float /\
  Steppers.dt Examples.ode_final = 0.75%float /\
  Steppers.p_tfinal p = 1%float /\
  (Steppers.t Examples.ode_final - Steppers.p_tfinal p = 0.5)%float /\
  (Steppers.p_tfinal p + 0.25 <? Steppers.t Examples.ode_final)%float = true.
Proof. repeat split; reflexivity. Qed.



(** C5 at concrete runs: a run whose final error 0.09375 is within the
    tolerance 0.125 returns that number; with the tolerance 0.0625 the
    same run raises; a run that starts at its final time returns 0.0. *)
Lemma euler_flow_stepper_result_example :
  result (Steppers.euler_flow_stepper (HI := Examples.ode_imports)
            (Examples.ode_parameters 1 0 0.125) 3)
    = Returned (VNum 0.09375%float) /\
  result (Steppers.euler_flow_stepper (HI := Examples.ode_imports)
            (Examples.ode_parameters 1 0 0.0625) 3)
    = Raised (ValueError "Solution failed to follow expected result.") /\
  Steppers.euler_flow_stepper (HI := Examples.ode_imports)
    (Examples.ode_parameters 0 0 0.125) 3
    = ([], Returned (VNum 0%float)).
Proof.
  split; [|split].
  - apply (proj1 (proj2 (proj2 (proj2 (euler_flow_stepper_result
             (HI := Examples.ode_imports)
             (Examples.ode_parameters 1 0 0.125) 3)))
             Examples.ode_final [] [] 0.09375%float eq_refl eq_refl eq_refl)).
  - apply (proj2 (proj2 (proj2 (euler_flow_stepper_result
             (HI := Examples.ode_imports)
             (Examples.ode_parameters 1 0 0.0625) 3)))
             Examples.ode_final [] [] 0.09375%float); reflexivity.
  - apply (proj1 (euler_flow_stepper_result (HI := Examples.ode_imports)
             (Examples.ode_parameters 0 0 0.125) 3)). reflexivity.
Defined.

(** C5 as stated fails: the run that completes returns the number
    0.09375, which is no triple of step, time and state; the run that
    diverges raises an exception whose only argument is its message. *)
Lemma euler_flow_stepper_returns_no_triple :
  let completed := Steppers.euler_flow_stepper (HI := Examples.ode_imports)
                     (Examples.ode_parameters 1 0 0.125) 3 in
  let diverged := Steppers.euler_flow_stepper (HI := Examples.ode_imports)
                    (Examples.ode_parameters 1 0 0.0625) 3 in
  result completed = Returned (VNum 0.09375%float) /\
  ~ (exists step t state,
        result completed = Returned (VTuple [VInt step; VNum t; VArr state])) /\
  result diverged
  = Raised (MkExn "ValueError"
              [VStr "Solution failed to follow expected result."]) /\
  ~ (exists e step t state,
        result diverged = Raised e /\
        exn_args e = [VInt step; VNum t; VArr state]).
Proof.
  intros completed diverged. split; [reflexivity|]. split; [|split].
  - intros (step & t & state & E). discriminate E.
  - reflexivity.
  - intros (e & step & t & state & E & Hargs).
    change (result diverged) with
      (Raised (A := pyval float float)
         (MkExn "ValueError"
            [VStr (N := float) (Arr := float)
               "Solution failed to follow expected result."])) in E.
    injection E as <-. discriminate Hargs.
Qed.

(** * Further properties *)

(** ** [sim_checkpoint]: what a due call does, in order *)

Section CheckpointTrace.

Import PrimFloat.

Context {N Arr : Type} {HN : PyNumber N} {HI : Simutil.Imports N Arr}.

Variables (discr : Simutil.Discr Arr) (eos : Simutil.Eos Arr) (q : Arr).
Variable vizname : string.
Variable exact_soln : option (Simutil.ExactSoln (N := N) (Arr := Arr)).
Variables (step : Z) (t dt cfl : N) (nstatus nviz : Z) (exittol : float).
Variables (constant_cfl : bool) (comm : option Comm).

Let call : M N Arr Z :=
  Simutil.sim_checkpoint discr eos q vizname exact_soln step t dt cfl
    nstatus nviz exittol constant_cfl comm.

Let rank : Z := match comm with Some c => Get_rank c | None => 0 end.

Let dump : list (event N Arr) :=
  if Simutil.check_step step nviz
  then [EvOutputDump vizname (viz_fields discr eos q t exact_soln) comm step t]
  else [].

Let status_line (exact : Simutil.ExactSoln) : list (event N Arr) :=
  if rank =? 0
  then [EvLogInfo (status_text discr eos q step t dt cfl exact)]
  else [].

Let no_field : exn N Arr :=
  IndexError "index 0 is out of bounds for axis 0 with size 0".

(** The whole of a due call on a state with fields: the evaluations, then
    on a status step with a reference solution the status line (rank 0)
    and the error line (beyond the tolerance), then the dump on a
    visualization step. *)
Lemma sim_checkpoint_due :
  Simutil.check_step step nstatus || Simutil.check_step step nviz = true ->
  Simutil.num_fields q <> O ->
  call =
  match (if Simutil.check_step step nstatus then exact_soln else None) with
  | Some exact =>
      match status_errors discr eos q t exact with
      | [] =>
          (evaluations discr q t exact_soln comm ++ status_line exact,
           Raised (ValueError
             "zero-size array to reduction operation maximum which has no identity"))
      | e :: es =>
          if (exittol <? fold_left np_maximum es e)%float
          then (evaluations discr q t exact_soln comm ++ status_line exact
                  ++ [EvLogError "Solution failed to follow expected result."]
                  ++ dump,
                Returned 1)
          else (evaluations discr q t exact_soln comm ++ status_line exact
                  ++ dump,
                Returned 0)
      end
  | None => (evaluations discr q t exact_soln comm ++ dump, Returned 0)
  end.
Proof.
  unfold call, dump, status_line, rank, Simutil.sim_checkpoint,
    Simutil.first_array_context, status_errors, status_text, evaluations,
    viz_fields, status_errors, thawed_nodes.
  intros Hdue Hq. destruct (Simutil.num_fields q) eqn:Hn; [contradiction|].
  clear Hq. revert Hdue. unfold_effects.
  destruct (Simutil.check_step step nviz), (Simutil.check_step step nstatus),
    comm as [c|], exact_soln as [exact|]; simpl; intros Hdue;
    try discriminate; try reflexivity;
    destruct (Simutil.compare_states q
                (exact t (Simutil.thaw (Simutil.array_context q)
                            (Simutil.discr_nodes discr)) eos))
      as [|e es]; simpl;
    try destruct (Get_rank c); simpl;
    try destruct (exittol <? fold_left np_maximum es e)%float; reflexivity.
Qed.

Lemma evaluations_not_output (ev : event N Arr) :
  In ev (evaluations discr q t exact_soln comm) -> is_output ev = false.
Proof.
  unfold evaluations. destruct comm, exact_soln; simpl;
    intuition (subst; reflexivity).
Qed.

Lemma status_line_log (exact : Simutil.ExactSoln) (ev : event N Arr) :
  In ev (status_line exact) ->
  ev = EvLogInfo (status_text discr eos q step t dt cfl exact).
Proof.
  unfold status_line. destruct (rank =? 0); simpl; intuition.
Qed.

Lemma dump_cases :
  (Simutil.check_step step nviz = false /\ dump = []) \/
  (Simutil.check_step step nviz = true /\
   dump = [EvOutputDump vizname (viz_fields discr eos q t exact_soln)
             comm step t]).
Proof. unfold dump. destruct (Simutil.check_step step nviz); auto. Qed.

(** How a call ends: on the fast path, at [q[0]], or as a due call on a
    state with fields. *)
Lemma sim_checkpoint_cases :
  (Simutil.check_step step nstatus = false /\
   Simutil.check_step step nviz = false /\ call = ([], Returned 0)) \/
  (Simutil.check_step step nstatus || Simutil.check_step step nviz = true /\
   Simutil.num_fields q = O /\ call = ([], Raised no_field)) \/
  (Simutil.check_step step nstatus || Simutil.check_step step nviz = true /\
   Simutil.num_fields q <> O).
Proof.
  destruct (Simutil.check_step step nstatus || Simutil.check_step step nviz)
    eqn:Hdue.
  - right. destruct (Simutil.num_fields q) eqn:Hn.
    + left. split; [reflexivity|]. split; [reflexivity|].
      apply sim_checkpoint_no_fields; assumption.
    + right. split; [reflexivity | discriminate].
  - left. apply orb_false_elim in Hdue as [Hs Hv].
    split; [exact Hs|]. split; [exact Hv|].
    apply sim_checkpoint_not_due; assumption.
Qed.

(** The trace of a call that returns, in one shape: evaluations, log
    lines, dump. *)
Lemma sim_checkpoint_returned_shape (s : Z) :
  result call = Returned s ->
  exists evals logs,
    trace call = evals ++ logs ++ dump /\
    (forall ev, In ev evals -> is_output ev = false) /\
    (forall ev, In ev logs -> is_log ev = true) /\
    (In (EvLogError "Solution failed to follow expected result.") logs
     <-> s = 1) /\
    (s = 0 \/ s = 1) /\
    (evals = [] \/ evals = evaluations discr q t exact_soln comm).
Proof.
  destruct sim_checkpoint_cases
    as [(Hs & Hv & Hcall) | [(Hdue & Hq & Hcall) | (Hdue & Hq)]].
  - rewrite Hcall. simpl. intros E. injection E as <-.
    exists [], []. unfold dump. rewrite Hv. simpl.
    split; [reflexivity|]. split; [intros ev []|]. split; [intros ev []|].
    split; [|auto]. split; [intros [] | discriminate].
  - rewrite Hcall. discriminate.
  - rewrite (sim_checkpoint_due Hdue Hq : call = _).
    destruct (if Simutil.check_step step nstatus then exact_soln else None)
      as [exact|].
    + destruct (status_errors discr eos q t exact) as [|e es];
        [discriminate|].
      destruct (exittol <? fold_left np_maximum es e)%float; simpl;
        intros E; injection E as <-.
      * exists (evaluations discr q t exact_soln comm),
          (status_line exact
             ++ [EvLogError "Solution failed to follow expected result."]).
        rewrite <- !app_assoc.
        split; [reflexivity|]. split; [apply evaluations_not_output|].
        split; [|split; [|auto]].
        -- intros ev Hin. apply in_app_or in Hin as [Hin | [<- | []]];
             [|reflexivity].
           rewrite (status_line_log _ _ Hin). reflexivity.
        -- split; [reflexivity|]. intros _. apply in_or_app. simpl. auto.
      * exists (evaluations discr q t exact_soln comm), (status_line exact).
        split; [reflexivity|]. split; [apply evaluations_not_output|].
        split; [|split; [|auto]].
        -- intros ev Hin. rewrite (status_line_log _ _ Hin). reflexivity.
        -- split; [|discriminate]. intros Hin.
           apply status_line_log in Hin. discriminate.
    + simpl. intros E. injection E as <-.
      exists (evaluations discr q t exact_soln comm), [].
      split; [reflexivity|]. split; [apply evaluations_not_output|].
      split; [intros ev []|]. split; [|auto].
      split; [intros [] | discriminate].
Qed.

(** A call that does not return has raised at [q[0]]: the step is due and
    the state has no field. *)
Lemma sim_checkpoint_not_returned :
  (forall s, result call <> Returned s) ->
  Simutil.check_step step nstatus || Simutil.check_step step nviz = true /\
  Simutil.num_fields q = O /\ call = ([], Raised no_field).
Proof.
  intros Hres.
  destruct sim_checkpoint_cases
    as [(Hs & Hv & Hcall) | [H | (Hdue & Hq)]]; [|exact H|].
  - exfalso. apply (Hres 0). rewrite Hcall. reflexivity.
  - exfalso. revert Hres. rewrite (sim_checkpoint_due Hdue Hq : call = _).
    destruct (if Simutil.check_step step nstatus then exact_soln else None)
      as [exact|].
    + destruct (status_errors discr eos q t exact) as [|e es] eqn:Herr.
      * apply status_errors_nil in Herr. contradiction.
      * destruct (exittol <? fold_left np_maximum es e)%float;
          intros Hres; eapply Hres; reflexivity.
    + intros Hres; eapply Hres; reflexivity.
Qed.

(** X1: the visualization dump.  Off the visualization steps no dump is
    written.  On a visualization step a call that returns writes exactly
    one dump, as its last event, under [vizname] with the step and the
    time of the call; its fields are those of [make_io_fields], followed,
    when a reference solution is supplied, by the reference solution and
    the residual [q - expected_state]. *)
Theorem sim_checkpoint_dump_last :
  (Simutil.check_step step nviz = false ->
   forall ev, In ev (trace call) -> is_dump ev = false) /\
  (Simutil.check_step step nviz = true ->
   forall s, result call = Returned s ->
   exists tr,
     trace call
     = tr ++ [EvOutputDump vizname (viz_fields discr eos q t exact_soln)
                comm step t] /\
     forall ev, In ev tr -> is_dump ev = false).
Proof.
  assert (Hlog : forall ev : event N Arr, is_log ev = true -> is_dump ev = false)
    by (intros [] E; try discriminate; reflexivity).
  assert (Heval : forall ev : event N Arr,
             is_output ev = false -> is_dump ev = false)
    by (intros [] E; try discriminate; reflexivity).
  split.
  - intros Hv ev Hin. destruct (result call) as [s | e |] eqn:Hres.
    + destruct (sim_checkpoint_returned_shape Hres)
        as (evals & logs & Htr & Hev & Hlg & _).
      rewrite Htr in Hin. unfold dump in Hin. rewrite Hv, app_nil_r in Hin.
      apply in_app_or in Hin as [Hin | Hin]; auto.
    + destruct sim_checkpoint_not_returned as (_ & _ & Hcall);
        [intros s; rewrite Hres; discriminate|].
      rewrite Hcall in Hin. contradiction.
    + destruct sim_checkpoint_not_returned as (_ & _ & Hcall);
        [intros s; rewrite Hres; discriminate|].
      rewrite Hcall in Hin. contradiction.
  - intros Hv s Hres.
    destruct (sim_checkpoint_returned_shape Hres)
      as (evals & logs & Htr & Hev & Hlg & _).
    exists (evals ++ logs). rewrite Htr. unfold dump. rewrite Hv, app_assoc.
    split; [reflexivity|]. intros ev Hin.
    apply in_app_or in Hin as [Hin | Hin]; auto.
Qed.

(** X2: the status and the error line agree.  A call that returns
    returns 0 or 1, and it returns 1 exactly when it has logged the error
    line. *)
Theorem sim_checkpoint_status_iff_error_line (s : Z) :
  result call = Returned s ->
  (s = 0 \/ s = 1) /\
  (s = 1 <->
   In (EvLogError "Solution failed to follow expected result.") (trace call)).
Proof.
  intros Hres.
  destruct (sim_checkpoint_returned_shape Hres)
    as (evals & logs & Htr & Hev & Hlg & Herr & Hs & _).
  split; [exact Hs|]. rewrite <- Herr, Htr. split.
  - intros Hin. apply in_or_app. right. apply in_or_app. auto.
  - intros Hin. apply in_app_or in Hin as [Hin | Hin].
    + apply Hev in Hin. discriminate.
    + apply in_app_or in Hin as [Hin | Hin]; [exact Hin|].
      unfold dump in Hin.
      destruct (Simutil.check_step step nviz); simpl in Hin;
        intuition discriminate.
Qed.

(** X3: without a reference solution the call logs nothing: no status
    line, on no rank and on no step, and no error line; on a state with
    at least one field it returns 0. *)
Theorem sim_checkpoint_silent_without_reference :
  exact_soln = None ->
  (Simutil.num_fields q <> O -> result call = Returned 0) /\
  forall ev, In ev (trace call) -> is_log ev = false.
Proof.
  intros Hnone.
  destruct sim_checkpoint_cases
    as [(Hs & Hv & Hcall) | [(Hdue & Hq & Hcall) | (Hdue & Hq)]].
  - rewrite Hcall. simpl. split; [reflexivity | intros ev []].
  - rewrite Hcall. simpl. split; [contradiction | intros ev []].
  - rewrite (sim_checkpoint_due Hdue Hq : call = _). rewrite Hnone.
    replace (if Simutil.check_step step nstatus then None else None)
      with (@None (Simutil.ExactSoln (N := N) (Arr := Arr)))
      by (destruct (Simutil.check_step step nstatus); reflexivity).
    simpl. split; [reflexivity|]. intros ev Hin.
    apply in_app_or in Hin as [Hin | Hin].
    + rewrite <- Hnone in Hin. apply evaluations_not_output in Hin.
      destruct ev; try discriminate; reflexivity.
    + unfold dump in Hin.
      destruct (Simutil.check_step step nviz); simpl in Hin;
        [destruct Hin as [<- | []]; reflexivity | contradiction].
Qed.

(** X5: the one way a call raises.  It raises exactly when the step is a
    status step or a visualization step and the state has no field; the
    exception is the [IndexError] of [q[0]], and the call has by then
    evaluated, logged and written nothing. *)
Theorem sim_checkpoint_raises_without_first_field :
  (forall e, result call = Raised e ->
     exn_class e = "IndexError"%string /\ trace call = []) /\
  ((exists e, result call = Raised e) <->
   Simutil.check_step step nstatus || Simutil.check_step step nviz = true /\
   Simutil.num_fields q = O).
Proof.
  split; [|split].
  - intros e Hres.
    destruct sim_checkpoint_not_returned as (_ & _ & Hcall);
      [intros s; rewrite Hres; discriminate|].
    rewrite Hcall in Hres |- *. injection Hres as <-. split; reflexivity.
  - intros (e & Hres).
    destruct sim_checkpoint_not_returned as (Hdue & Hq & _);
      [intros s; rewrite Hres; discriminate | auto].
  - intros (Hdue & Hq). exists no_field.
    rewrite (sim_checkpoint_no_fields discr eos q vizname exact_soln step t dt
               cfl nstatus nviz exittol constant_cfl comm Hdue Hq : call = _).
    reflexivity.
Qed.

(** X6: a due call evaluates once.  On a step that is a status step or a
    visualization step, with a state of at least one field, the call
    begins by reading the rank (when a communicator is given), evaluating
    the equation of state on [q] and, when a reference solution is
    supplied, evaluating it at [t] on the thawed nodes: each once, in this
    order, and everything after is a log line or a dump. *)
Theorem sim_checkpoint_evaluates_once :
  Simutil.check_step step nstatus || Simutil.check_step step nviz = true ->
  Simutil.num_fields q <> O ->
  exists rest,
    trace call = evaluations discr q t exact_soln comm ++ rest /\
    forall ev, In ev rest -> is_output ev = true.
Proof.
  intros Hdue Hq. rewrite (sim_checkpoint_due Hdue Hq : call = _).
  assert (Hline : forall exact ev, In ev (status_line exact) ->
                                   is_output ev = true)
    by (intros exact ev Hin; rewrite (status_line_log _ _ Hin); reflexivity).
  assert (Hdump : forall ev, In ev dump -> is_output ev = true).
  { intros ev Hin. unfold dump in Hin.
    destruct (Simutil.check_step step nviz); simpl in Hin;
      [destruct Hin as [<- | []]; reflexivity | contradiction]. }
  destruct (if Simutil.check_step step nstatus then exact_soln else None)
    as [exact|].
  - destruct (status_errors discr eos q t exact) as [|e es].
    + simpl. eexists. split; [reflexivity|]. eauto.
    + destruct (exittol <? fold_left np_maximum es e)%float;
        unfold trace; cbn [fst];
        eexists; (split; [reflexivity|]); intros ev Hin;
        repeat (apply in_app_or in Hin as [Hin | Hin]); eauto;
        destruct Hin as [<- | []]; reflexivity.
  - simpl. eexists. split; [reflexivity|]. exact Hdump.
Qed.

(** X4: a NaN error is not flagged.  On a status step with a reference
    solution, when the error of some field is NaN, [numpy.max] is NaN, the
    comparison with the tolerance is false, and the call returns 0 without
    logging the error line - whatever the other errors and the tolerance
    are. *)
Theorem sim_checkpoint_nan_not_flagged (exact : Simutil.ExactSoln) (x : float) :
  Simutil.check_step step nstatus = true ->
  exact_soln = Some exact ->
  In x (status_errors discr eos q t exact) ->
  nisnan x = true ->
  result call = Returned 0 /\
  ~ In (EvLogError "Solution failed to follow expected result.") (trace call).
Proof.
  intros Hs He Hin Hx.
  assert (Hdue : Simutil.check_step step nstatus
                 || Simutil.check_step step nviz = true)
    by (rewrite Hs; reflexivity).
  assert (Hq : Simutil.num_fields q <> O).
  { intros Hq. apply (status_errors_nil discr eos q t exact) in Hq.
    rewrite Hq in Hin. contradiction. }
  rewrite (sim_checkpoint_due Hdue Hq : call = _), Hs, He.
  destruct (status_errors discr eos q t exact) as [|e es]; [contradiction|].
  assert (Hnan : is_nan (fold_left np_maximum es e) = true)
    by (eapply np_max_nan; eassumption).
  assert (Hgt : (exittol <? fold_left np_maximum es e)%float = false)
    by (apply nan_not_greater; exact Hnan).
  rewrite Hgt.
  unfold trace, result; cbn [fst snd]. split; [reflexivity|].
  intros Herr. apply in_app_or in Herr as [Herr | Herr].
  - rewrite <- He in Herr. apply evaluations_not_output in Herr. discriminate.
  - apply in_app_or in Herr as [Herr | Herr].
    + apply status_line_log in Herr. discriminate.
    + unfold dump in Herr.
      destruct (Simutil.check_step step nviz); simpl in Herr;
        intuition discriminate.
Qed.

End CheckpointTrace.

(** X1 at a concrete call: step 5 is a visualization step only; the dump
    comes last and holds the four fields. *)
Lemma sim_checkpoint_dump_last_example :
  exists tr,
    trace (Examples.checkpoint (Some Examples.exact_off) 5 10 5 0.125 0)
    = tr ++ [EvOutputDump "pulse"
               [("q"%string, Examples.q3); ("dv"%string, Examples.q3);
                ("exact_soln"%string, [1; 2.25; 3]%float);
                ("residual"%string, [0; -0.25; 0]%float)]
               (Some (MkComm 0)) 5 0.5%float] /\
    forall ev, In ev tr -> is_dump ev = false.
Proof.
  unfold Examples.checkpoint.
  refine (proj2 (sim_checkpoint_dump_last (HI := Examples.float_imports)
                   (Examples.discr1 [0%float]) Examples.eos_id Examples.q3
                   "pulse" (Some Examples.exact_off) 5 0.5%float 0.25%float
                   1%float 10 5 0.125%float false (Some (MkComm 0)))
            _ 0 _); reflexivity.
Defined.

(** X2 at a concrete call: the diverged status step returns 1 and has
    logged the error line. *)
Lemma sim_checkpoint_status_iff_error_line_example :
  In (EvLogError "Solution failed to follow expected result.")
     (trace (Examples.checkpoint (Some Examples.exact_off) 10 10 (-1) 0.125 0)).
Proof.
  unfold Examples.checkpoint.
  refine (proj1 (proj2 (sim_checkpoint_status_iff_error_line
                   (HI := Examples.float_imports)
                   (Examples.discr1 [0%float]) Examples.eos_id Examples.q3
                   "pulse" (Some Examples.exact_off) 10 0.5%float 0.25%float
                   1%float 10 (-1) 0.125%float false (Some (MkComm 0))
                   (s := 1) _)) _); reflexivity.
Defined.

(** X3 at a concrete call: a status and visualization step on rank 0
    without a reference solution. *)
Lemma sim_checkpoint_silent_without_reference_example :
  result (Examples.checkpoint None 10 10 10 0.125 0) = Returned 0 /\
  forall ev, In ev (trace (Examples.checkpoint None 10 10 10 0.125 0)) ->
             is_log ev = false.
Proof.
  unfold Examples.checkpoint.
  destruct (sim_checkpoint_silent_without_reference
              (HI := Examples.float_imports)
              (Examples.discr1 [0%float]) Examples.eos_id Examples.q3 "pulse"
              (exact_soln := None) 10 0.5%float 0.25%float 1%float 10 10
              0.125%float false (Some (MkComm 0)) eq_refl) as [Hres Hlog].
  split; [apply Hres; discriminate | exact Hlog].
Defined.

(** X4 at a concrete call: the error of the second field is NaN and the
    tolerance is 0.125. *)
Lemma sim_checkpoint_nan_not_flagged_example :
  result (Examples.checkpoint (Some MoreExamples.exact_nan) 10 10 (-1) 0.125 0)
  = Returned 0.
Proof.
  unfold Examples.checkpoint.
  refine (proj1 (sim_checkpoint_nan_not_flagged (HI := Examples.float_imports)
                   (Examples.discr1 [0%float]) Examples.eos_id Examples.q3
                   "pulse" 10 0.5%float 0.25%float 1%float 10 (-1)
                   0.125%float false (Some (MkComm 0))
                   (exact := MoreExamples.exact_nan) PrimFloat.nan
                   _ _ _ _)); try reflexivity.
  right. left. reflexivity.
Defined.

(** X5 at a concrete call: a status step on a state without fields. *)
Lemma sim_checkpoint_raises_without_first_field_example :
  exists e,
    result (Simutil.sim_checkpoint (HI := Examples.float_imports)
              (Examples.discr1 [0%float]) Examples.eos_id [] "pulse"
              (Some Examples.exact_off) 10 0.5%float 0.25%float 1%float 10 10
              0.125%float false (Some (MkComm 0)))
    = Raised e.
Proof.
  apply (proj2 (sim_checkpoint_raises_without_first_field
                  (HI := Examples.float_imports)
                  (Examples.discr1 [0%float]) Examples.eos_id []
                  "pulse" (Some Examples.exact_off) 10 0.5%float
                  0.25%float 1%float 10 10 0.125%float false
                  (Some (MkComm 0)))).
  split; reflexivity.
Defined.

(** X6 at a concrete call: a visualization step that is no status
    step. *)
Lemma sim_checkpoint_evaluates_once_example :
  exists rest,
    trace (Examples.checkpoint (Some Examples.exact_off) 5 10 5 0.125 0)
    = [EvGetRank (MkComm 0); EvEos Examples.q3;
       EvExactSoln 0.5%float [0%float]] ++ rest /\
    forall ev, In ev rest -> is_output ev = true.
Proof.
  unfold Examples.checkpoint.
  apply (sim_checkpoint_evaluates_once (HI := Examples.float_imports)
           (Examples.discr1 [0%float]) Examples.eos_id Examples.q3
           "pulse" (Some Examples.exact_off) 5 0.5%float 0.25%float
           1%float 10 5 0.125%float false (Some (MkComm 0))).
  - reflexivity.
  - discriminate.
Defined.

(** X20 at a concrete call: the second field is off by 0.25, beyond the
    tolerance 0.125, and the call returns 1. *)
Lemma checkpoint_status_by_field_example :
  result (Examples.checkpoint (Some Examples.exact_off) 10 10 (-1) 0.125 0)
  = Returned 1.
Proof.
  unfold Examples.checkpoint.
  apply (checkpoint_status_by_field (HI := Examples.float_imports)
           (Examples.discr1 [0%float]) Examples.eos_id Examples.q3
           "pulse" Examples.exact_off 10 0.5%float 0.25%float
           1%float 10 (-1) 0.125%float false (Some (MkComm 0))).
  - reflexivity.
  - discriminate.
  - intros x [<- | [<- | [<- | []]]]; reflexivity.
  - exists 0.25%float. split; [|reflexivity]. right. left. reflexivity.
Defined.

(** ** [check_step]: which steps are due *)

Section DueSteps.

Lemma check_step_positive (step k : Z) :
  0 < k -> Simutil.check_step step k = (step mod k =? 0).
Proof.
  intros Hk. unfold Simutil.check_step.
  replace (k =? 0) with false by (symmetry; apply Z.eqb_neq; lia).
  replace (k <? 0) with false by (symmetry; apply Z.ltb_ge; lia).
  destruct (step mod k =? 0); reflexivity.
Qed.

Lemma filter_none {A} (f : A -> bool) (l : list A) :
  (forall x, In x l -> f x = false) -> filter f l = [].
Proof.
  induction l as [|a l IH]; intros H; simpl; [reflexivity|].
  rewrite (H a) by (left; reflexivity). apply IH.
  intros x Hx. apply H. right. exact Hx.
Qed.

Lemma filter_map_length {A B} (f : B -> bool) (g : A -> B) (l : list A) :
  List.length (filter f (map g l))
  = List.length (filter (fun x => f (g x)) l).
Proof.
  induction l as [|a l IH]; simpl; [reflexivity|].
  destruct (f (g a)); simpl; rewrite IH; reflexivity.
Qed.

(** In the block of [k] steps that starts at [n * k] only the first is
    due. *)
Lemma due_block (k n : nat) :
  (0 < k)%nat ->
  filter (fun s => Simutil.check_step (Z.of_nat s) (Z.of_nat k)) (seq (n * k) k)
  = [(n * k)%nat].
Proof.
  intros Hk. destruct k as [|k']; [lia|].
  assert (Hpos : 0 < Z.of_nat (S k')) by lia.
  assert (Hhead : Simutil.check_step (Z.of_nat (n * S k')) (Z.of_nat (S k'))
                  = true).
  { rewrite check_step_positive by exact Hpos. apply Z.eqb_eq.
    rewrite Nat2Z.inj_mul. apply Z.mod_mul. lia. }
  cbn [seq filter]. rewrite Hhead. f_equal.
  apply filter_none. intros s Hs. apply in_seq in Hs.
  rewrite check_step_positive by exact Hpos. apply Z.eqb_neq.
  replace (Z.of_nat s)
    with (Z.of_nat (s - n * S k') + Z.of_nat n * Z.of_nat (S k')) by lia.
  rewrite Z.mod_add by lia. rewrite Z.mod_small; lia.
Qed.

Lemma due_count (k n : nat) :
  (0 < k)%nat ->
  List.length
    (filter (fun s => Simutil.check_step (Z.of_nat s) (Z.of_nat k))
            (seq 0 (n * k)))
  = n.
Proof.
  intros Hk. induction n as [|n IH]; [reflexivity|].
  replace (S n * k)%nat with (n * k + k)%nat by lia.
  rewrite seq_app, filter_app, length_app, IH. simpl seq at 1.
  rewrite (due_block n Hk). simpl. lia.
Qed.

(** X7: the due steps of a positive interval are its multiples.  For
    [interval > 0], [check_step] is true exactly when [interval] divides
    [step] (negative steps included), and it has period [interval]. *)
Theorem check_step_multiples (step interval : Z) :
  0 < interval ->
  (Simutil.check_step step interval = true <-> (interval | step)) /\
  Simutil.check_step (step + interval) interval
  = Simutil.check_step step interval.
Proof.
  intros Hk. rewrite !check_step_positive by exact Hk. split.
  - rewrite Z.eqb_eq. apply Z.mod_divide. lia.
  - replace (step + interval) with (step + 1 * interval) by lia.
    rewrite Z.mod_add by lia. reflexivity.
Qed.

(** X8: the cadence of a positive interval.  Of the first
    [n * interval] steps, [0 .. n * interval - 1], exactly [n] are due. *)
Theorem check_step_cadence (interval n : Z) :
  0 < interval -> 0 <= n ->
  List.length
    (filter (fun step => Simutil.check_step step interval)
            (py_range (n * interval)))
  = Z.to_nat n.
Proof.
  intros Hk Hn. unfold py_range. rewrite filter_map_length.
  rewrite Z2Nat.inj_mul by lia.
  assert (Hcount := @due_count (Z.to_nat interval) (Z.to_nat n)).
  rewrite Z2Nat.id in Hcount by lia. apply Hcount. lia.
Qed.

End DueSteps.

(** X7 at a concrete interval: step -20 is due at interval 10, and so is
    step -10. *)
Lemma check_step_multiples_example :
  Simutil.check_step (-20) 10 = true /\
  Simutil.check_step (-20 + 10) 10 = Simutil.check_step (-20) 10.
Proof.
  destruct (@check_step_multiples (-20) 10) as [Hdiv Hper]; [lia|].
  split; [|exact Hper]. apply Hdiv. exists (-2). reflexivity.
Defined.

(** X8 at a concrete interval: of the steps 0 .. 29, three are due at
    interval 10. *)
Lemma check_step_cadence_example :
  List.length
    (filter (fun step => Simutil.check_step step 10) (py_range (3 * 10)))
  = 3%nat.
Proof. apply (@check_step_cadence 10 3); lia. Defined.

(** ** [inviscid_sim_timestep]: the clipped step *)

(** X9: clipping is idempotent.  Passing the returned step back as [dt]
    returns it again, for every kind of number, with or without a
    constant CFL number - in binary64 too, where [t + (t_final - t)] may
    lie beyond [t_final]. *)
Theorem inviscid_sim_timestep_idempotent
    {N Arr : Type} {HN : PyNumber N} {HI : Simutil.Imports N Arr}
    (discr : Simutil.Discr Arr) (state : Arr) (eos : Simutil.Eos Arr)
    (t dt cfl t_final : N) (constant_cfl : bool) :
  Simutil.inviscid_sim_timestep discr state t
    (Simutil.inviscid_sim_timestep discr state t dt cfl eos t_final constant_cfl)
    cfl eos t_final constant_cfl
  = Simutil.inviscid_sim_timestep discr state t dt cfl eos t_final constant_cfl.
Proof.
  rewrite !inviscid_sim_timestep_unfold. unfold unclipped_dt. cbv zeta.
  destruct constant_cfl; [reflexivity|].
  destruct (ngtb (nadd t dt) t_final) eqn:Hclip.
  - destruct (ngtb (nadd t (nsub t_final t)) t_final); reflexivity.
  - rewrite Hclip. reflexivity.
Qed.

(** X10: the step at integers.  In exact arithmetic the result is the
    smaller of the unclipped step and [t_final - t].  Before the final
    time a positive step stays positive, is not enlarged and does not
    pass the final time; at or after the final time a step that is not
    negative comes back as [t_final - t], which is zero or negative. *)
Theorem inviscid_sim_timestep_int_min
    {Arr : Type} {HI : Simutil.Imports Z Arr}
    (discr : Simutil.Discr Arr) (state : Arr) (eos : Simutil.Eos Arr)
    (t dt cfl t_final : Z) (constant_cfl : bool) :
  let mydt := unclipped_dt discr state eos dt cfl constant_cfl in
  let dt' :=
    Simutil.inviscid_sim_timestep discr state t dt cfl eos t_final constant_cfl in
  dt' = Z.min mydt (t_final - t) /\
  (t < t_final -> 0 < mydt -> 0 < dt' <= mydt /\ t + dt' <= t_final) /\
  (t_final <= t -> 0 <= mydt -> dt' = t_final - t /\ dt' <= 0).
Proof.
  intros mydt dt'.
  assert (Hdt : dt' = if t_final <? t + mydt then t_final - t else mydt)
    by (unfold dt'; rewrite inviscid_sim_timestep_unfold; reflexivity).
  rewrite Hdt. destruct (Z.ltb_spec t_final (t + mydt)); lia.
Qed.

(** X10 at concrete calls: from 8 towards 10 a step of 5 becomes 2; at
    12, beyond the final time 10, a step of 5 becomes -2. *)
Lemma inviscid_sim_timestep_int_min_example :
  (let dt' := Simutil.inviscid_sim_timestep (HI := Examples.int_imports)
                (Examples.discr1 [0]) [1; 2; 3] 8 5 1 Examples.eos_id 10 false in
   0 < dt' <= 5 /\ 8 + dt' <= 10) /\
  (let dt' := Simutil.inviscid_sim_timestep (HI := Examples.int_imports)
                (Examples.discr1 [0]) [1; 2; 3] 12 5 1 Examples.eos_id 10 false in
   dt' = 10 - 12 /\ dt' <= 0).
Proof.
  split.
  - apply (proj1 (proj2 (inviscid_sim_timestep_int_min
                           (HI := Examples.int_imports) (Examples.discr1 [0])
                           [1; 2; 3] Examples.eos_id 8 5 1 10 false)));
      [lia | simpl; lia].
  - apply (proj2 (proj2 (inviscid_sim_timestep_int_min
                           (HI := Examples.int_imports) (Examples.discr1 [0])
                           [1; 2; 3] Examples.eos_id 12 5 1 10 false)));
      [lia | simpl; lia].
Defined.

(** ** [euler_flow_stepper]: the names of the files *)

Section FileNames.

Import Steppers.

Lemma uint_of_string_zeros (k : nat) (s : string) :
  DecimalString.NilEmpty.uint_of_string (zeros k ++ s)
  = option_map (Nat.iter k Decimal.D0) (DecimalString.NilEmpty.uint_of_string s).
Proof.
  induction k as [|k IH]; simpl.
  - destruct (DecimalString.NilEmpty.uint_of_string s); reflexivity.
  - rewrite IH. destruct (DecimalString.NilEmpty.uint_of_string s); reflexivity.
Qed.

Lemma of_uint_leading_zeros (k : nat) (d : Decimal.uint) :
  N.of_uint (Nat.iter k Decimal.D0 d) = N.of_uint d.
Proof. induction k as [|k IH]; simpl; [reflexivity | exact IH]. Qed.

Lemma to_uint_digits (n : N) :
  DecimalString.NilEmpty.uint_of_string
    (DecimalString.NilZero.string_of_uint (N.to_uint n))
  = Some (N.to_uint n).
Proof.
  destruct n as [|p]; [reflexivity|]. simpl N.to_uint.
  pose proof (DecimalPos.Unsigned.to_uint_nonnil p) as Hnil.
  destruct (Pos.to_uint p) eqn:Hd; [contradiction| ..];
    apply DecimalString.NilEmpty.usu.
Qed.

(** The digits of a step that is not negative can be read back. *)
Lemma decode_format_04d (z : Z) :
  0 <= z -> decode_digits (format_04d z) = Some z.
Proof.
  intros Hz. unfold decode_digits, format_04d.
  replace (z <? 0) with false by (symmetry; apply Z.ltb_ge; exact Hz).
  cbn [String.append]. rewrite uint_of_string_zeros, to_uint_digits.
  cbn [option_map]. rewrite of_uint_leading_zeros, DecimalN.Unsigned.of_to.
  f_equal. rewrite N2Z.inj_abs_N. apply Z.abs_eq. exact Hz.
Qed.

Lemma format_04d_inj (z1 z2 : Z) :
  0 <= z1 -> 0 <= z2 -> format_04d z1 = format_04d z2 -> z1 = z2.
Proof.
  intros H1 H2 E. apply (f_equal decode_digits) in E.
  rewrite !decode_format_04d in E by assumption. congruence.
Qed.

Lemma length_zeros (k : nat) : String.length (zeros k) = k.
Proof. induction k as [|k IH]; simpl; congruence. Qed.

Lemma length_append (s1 s2 : string) :
  String.length (s1 ++ s2) = (String.length s1 + String.length s2)%nat.
Proof. induction s1 as [|a s1 IH]; simpl; congruence. Qed.

Lemma four_digits :
  forallb (fun z => (String.length (format_04d z) =? 4)%nat) (py_range 10000)
  = true.
Proof. vm_compute. reflexivity. Qed.

(** X11: the step field of a file name.  For a step that is not
    negative, [format(istep, "04d")] has at least four characters, exactly
    four up to step 9999, and the step can be read back from it; so two
    different steps never give the same field. *)
Theorem format_04d_round_trip (z : Z) :
  0 <= z ->
  decode_digits (format_04d z) = Some z /\
  (4 <= String.length (format_04d z))%nat /\
  (z <= 9999 -> String.length (format_04d z) = 4%nat) /\
  (forall z', 0 <= z' -> format_04d z' = format_04d z -> z' = z).
Proof.
  intros Hz. split; [apply decode_format_04d; exact Hz|].
  split; [|split].
  - unfold format_04d.
    replace (z <? 0) with false by (symmetry; apply Z.ltb_ge; exact Hz).
    cbn [String.append String.length].
    rewrite length_append, length_zeros. lia.
  - intros Hmax. pose proof four_digits as Hall.
    rewrite forallb_forall in Hall. apply Nat.eqb_eq, Hall.
    unfold py_range. apply in_map_iff. exists (Z.to_nat z).
    split; [lia|]. apply in_seq. lia.
  - intros z' Hz' E. apply format_04d_inj; assumption.
Qed.

End FileNames.

(** X11 at a concrete step: step 42 gives "0042", and "0042" reads 42. *)
Lemma format_04d_round_trip_example :
  Steppers.format_04d 42 = "0042"%string /\
  decode_digits "0042" = Some 42 /\
  String.length (Steppers.format_04d 42) = 4%nat.
Proof.
  destruct (@format_04d_round_trip 42) as (Hdec & _ & Hlen & _); [lia|].
  split; [reflexivity|]. split; [exact Hdec | apply Hlen; lia].
Defined.

(** ** [euler_flow_stepper]: the loop *)

Section StepperLoop.

Import Steppers.

Context {Arr Bnd : Type} {HI : Imports Arr Bnd}.
Variable parameters : Parameters Arr Bnd.

(** One pass, by whether the status output is due. *)
Lemma loop_body_quiet (l : locals Arr) :
  divides_by_zero parameters l = false ->
  (p_nstatus parameters >? 0) = false \/
  (istep l mod p_nstatus parameters =? 0) = false ->
  loop_body parameters l
  = ([], Returned (advance parameters (selected parameters l))).
Proof.
  intros Hz Hq. rewrite (loop_body_selected parameters l Hz).
  assert (Hi : istep (selected parameters l) = istep l)
    by apply selected_clock.
  rewrite Hi. destruct Hq as [-> | Hq]; [reflexivity|].
  rewrite Hq. destruct (p_nstatus parameters >? 0); reflexivity.
Qed.

Lemma loop_body_due (l : locals Arr) :
  divides_by_zero parameters l = false ->
  (p_nstatus parameters >? 0) = true ->
  (istep l mod p_nstatus parameters =? 0) = true ->
  loop_body parameters l
  = match write_soln parameters (selected parameters l) with
    | (tr, Returned _) =>
        (tr, Returned (advance parameters (selected parameters l)))
    | (tr, Raised e) => (tr, Raised e)
    | (tr, OutOfFuel) => (tr, OutOfFuel)
    end.
Proof.
  intros Hz Hn Hd. rewrite (loop_body_selected parameters l Hz).
  assert (Hi : istep (selected parameters l) = istep l)
    by apply selected_clock.
  rewrite Hi, Hn, Hd. unfold_effects.
  destruct (write_soln parameters (selected parameters l)) as [tr [errs | e |]];
    simpl; rewrite ?app_nil_r; reflexivity.
Qed.

Lemma stepping_loop_quiet (fuel : nat) (l : locals Arr) :
  p_nstatus parameters <= 0 ->
  trace (stepping_loop parameters fuel l) = [] /\
  forall e, result (stepping_loop parameters fuel l) = Raised e ->
            e = ZeroDivisionError "float division by zero" /\
            p_constantcfl parameters = false.
Proof.
  intros Hn. assert (Hg : (p_nstatus parameters >? 0) = false)
    by (rewrite Z.gtb_ltb; apply Z.ltb_ge; lia).
  revert l. induction fuel as [|fuel IH]; intros l; simpl.
  - split; [reflexivity | discriminate].
  - destruct (t l <? p_tfinal parameters)%float.
    + destruct (divides_by_zero parameters l) eqn:Hz.
      * rewrite (loop_body_divides_by_zero _ _ Hz). simpl.
        split; [reflexivity|]. intros e E. injection E as <-.
        split; [reflexivity|]. unfold divides_by_zero in Hz.
        destruct (p_constantcfl parameters); [discriminate | reflexivity].
      * rewrite (loop_body_quiet l Hz (or_introl Hg)). unfold bind.
        destruct (IH (advance parameters (selected parameters l)))
          as [Htr Hres].
        destruct (stepping_loop parameters fuel
                    (advance parameters (selected parameters l))) as [tr r].
        simpl in *. subst tr. split; [reflexivity | exact Hres].
    + split; [reflexivity | discriminate].
Qed.

(** X12: a run with the status output disabled is silent.  With a status
    interval of 0 or less, the loop logs nothing and writes no file,
    however many passes it makes, and the one exception it can raise is
    the [ZeroDivisionError] of [dt / sdt], under a fixed step size; the
    whole run logs the first line and, when it completes within the
    tolerance, "Goodbye!", and nothing else. *)
Theorem euler_flow_stepper_quiet (fuel : nat) :
  p_nstatus parameters <= 0 ->
  (forall l, trace (stepping_loop parameters fuel l) = [] /\
             forall e, result (stepping_loop parameters fuel l) = Raised e ->
                       e = ZeroDivisionError "float division by zero" /\
                       p_constantcfl parameters = false) /\
  ((p_tfinal parameters <=? p_time parameters)%float = false ->
   trace (euler_flow_stepper parameters fuel)
     = [EvLogInfo (init_message parameters)] \/
   trace (euler_flow_stepper parameters fuel)
     = [EvLogInfo (init_message parameters); EvLogInfo "Goodbye!"]).
Proof.
  intros Hn. split; [intros l; apply stepping_loop_quiet; exact Hn|].
  intros Hc. unfold euler_flow_stepper. rewrite Hc.
  destruct (stepping_loop_quiet fuel (initial_locals parameters) Hn)
    as [Htr Hres].
  destruct (stepping_loop parameters fuel (initial_locals parameters))
    as [tr [l | e |]] eqn:Hl; simpl in Htr; subst tr.
  - destruct (final_error_without_status parameters l Hn) as (_ & Hfe).
    unfold_effects. simpl.
    destruct (final_error parameters l) as [tr' [maxerr | e |]] eqn:He;
      simpl in Hfe; subst tr'.
    + rewrite (finish_returned_error _ _ He).
      destruct (p_exittol parameters <? maxerr)%float; simpl; auto.
    + rewrite (finish_raised_error _ _ He). simpl. auto.
    + exfalso. eapply final_error_not_out_of_fuel, He.
  - unfold_effects. simpl. auto.
  - unfold_effects. simpl. auto.
Qed.

(** X13: the clock under a fixed step size.  Without a constant CFL
    number the step size is never reassigned: when the loop exits after
    [n] passes, [dt] is what it was, [istep] has grown by [n] and [t] is
    the start time with [dt] added [n] times, one binary64 addition per
    pass (not [t + n * dt]).  With a constant CFL number it is [cfl] that
    is never reassigned. *)
Theorem stepping_loop_fixed_dt (fuel : nat) (l l' : locals Arr) tr :
  stepping_loop parameters fuel l = (tr, Returned l') ->
  (p_constantcfl parameters = false ->
   dt l' = dt l /\
   exists n : nat,
     (n < fuel)%nat /\ istep l' = istep l + Z.of_nat n /\
     t l' = Nat.iter n (fun x => (x + dt l)%float) (t l)) /\
  (p_constantcfl parameters = true -> cfl l' = cfl l).
Proof.
  revert l tr. induction fuel as [|fuel IH]; intros l tr; simpl; [discriminate|].
  destruct (t l <? p_tfinal parameters)%float.
  - intros E. apply bind_returned in E as (tr1 & l1 & tr2 & Hbody & Hrest & _).
    apply loop_body_returned in Hbody.
    destruct (IH _ _ Hrest) as [Hfixed Hcfl]. subst l1. split.
    + intros Hc. destruct (Hfixed Hc) as (Hdt & n & Hn & Hi & Ht).
      unfold advance, selected in Hdt, Hi, Ht. rewrite Hc in Hdt, Hi, Ht.
      simpl in Hdt, Hi, Ht. split; [exact Hdt|].
      exists (S n). split; [lia|]. split; [lia|].
      rewrite Nat.iter_succ_r. exact Ht.
    + intros Hc. rewrite (Hcfl Hc). unfold advance, selected. rewrite Hc.
      reflexivity.
  - intros E. injection E as _ <-. split; [|reflexivity].
    intros _. split; [reflexivity|]. exists 0%nat.
    split; [lia|]. split; [lia | reflexivity].
Qed.

(** X14: a run that cannot end.  With the status output disabled, when
    some condition on the variables implies [t < t_final], rules out the
    division by zero and is kept by one pass through the body, the loop
    never exits from variables that satisfy it: every amount of fuel runs
    out, with nothing logged.  A step size of zero with a stable step
    size other than zero is such a condition. *)
Theorem stepping_loop_stalls (stuck : locals Arr -> Prop) :
  p_nstatus parameters <= 0 ->
  (forall l, stuck l ->
     (t l <? p_tfinal parameters)%float = true /\
     select_dt parameters l = ret (selected parameters l) /\
     stuck (advance parameters (selected parameters l))) ->
  forall l, stuck l ->
  forall fuel, stepping_loop parameters fuel l = ([], OutOfFuel).
Proof.
  intros Hn Hkeep l Hl fuel.
  assert (Hg : (p_nstatus parameters >? 0) = false)
    by (rewrite Z.gtb_ltb; apply Z.ltb_ge; lia).
  revert l Hl. induction fuel as [|fuel IH]; intros l Hl; simpl;
    [reflexivity|].
  destruct (Hkeep l Hl) as (Hlt & Hsel & Hnext). rewrite Hlt.
  assert (Hz : divides_by_zero parameters l = false).
  { rewrite select_dt_cases in Hsel.
    destruct (divides_by_zero parameters l); [discriminate | reflexivity]. }
  rewrite (loop_body_quiet l Hz (or_introl Hg)). unfold bind.
  rewrite (IH _ Hnext). reflexivity.
Qed.


(** X15: a NaN clock.  When the start time or the final time is NaN, the
    early return is not taken and the loop body never runs: the run logs
    its first line and goes straight to the final error of the initial
    state. *)
Theorem euler_flow_stepper_nan_clock (fuel : nat) :
  PrimFloat.is_nan (p_time parameters) = true \/
  PrimFloat.is_nan (p_tfinal parameters) = true ->
  stepping_loop parameters (S fuel) (initial_locals parameters)
    = ([], Returned (initial_locals parameters)) /\
  euler_flow_stepper parameters (S fuel)
  = (EvLogInfo (init_message parameters)
       :: trace (finish parameters (initial_locals parameters)),
     result (finish parameters (initial_locals parameters))).
Proof.
  intros Hnan.
  destruct (float_nan_compare (p_time parameters) (p_tfinal parameters) Hnan)
    as [Hlt _].
  destruct (float_nan_compare (p_tfinal parameters) (p_time parameters))
    as [_ Hle]; [tauto|].
  assert (Hloop : stepping_loop parameters (S fuel) (initial_locals parameters)
                  = ([], Returned (initial_locals parameters))).
  { simpl. unfold initial_locals at 1. simpl. rewrite Hlt. reflexivity. }
  split; [exact Hloop|].
  rewrite (euler_flow_stepper_run _ _ Hle Hloop). reflexivity.
Qed.

(** X16: too few dependent variables.  With a positive status interval,
    when the equation of state yields fewer than two dependent variables
    for the initial state, the first pass of the loop (step 0 is always a
    status step), once its first statement has not divided by zero, fails
    on [mindv[0]] or [mindv[1]]: the run has logged its first line only
    and raises [IndexError]. *)
Theorem euler_flow_stepper_short_eos (fuel : nat) :
  p_nstatus parameters > 0 ->
  select_dt parameters (initial_locals parameters)
    = ret (selected parameters (initial_locals parameters)) ->
  (p_tfinal parameters <=? p_time parameters)%float = false ->
  (p_time parameters <? p_tfinal parameters)%float = true ->
  (List.length (eos_call (p_eos parameters)
                  (fields (initial_locals parameters))) < 2)%nat ->
  euler_flow_stepper parameters (S fuel)
  = ([EvLogInfo (init_message parameters)],
     Raised (IndexError "list index out of range")).
Proof.
  intros Hn Hsel Hle Hlt Hshort. apply Z.gtb_gt in Hn.
  assert (Hz : divides_by_zero parameters (initial_locals parameters) = false).
  { rewrite select_dt_cases in Hsel.
    destruct (divides_by_zero parameters (initial_locals parameters));
      [discriminate | reflexivity]. }
  assert (Hf : fields (selected parameters (initial_locals parameters))
               = fields (initial_locals parameters))
    by (unfold selected; destruct (p_constantcfl parameters); reflexivity).
  assert (Hbody : loop_body parameters (initial_locals parameters)
                  = ([], Raised (IndexError "list index out of range"))).
  { rewrite loop_body_due; [|exact Hz|exact Hn|reflexivity].
    destruct (write_soln_cases parameters
                (selected parameters (initial_locals parameters)))
      as [(e & Hw & -> & _)
         | [(msg & c & m & _ & Hlong & _) | (msg & pre & _ & Hlong & _)]].
    - rewrite Hw. reflexivity.
    - exfalso. rewrite Hf in Hlong. lia.
    - exfalso. rewrite Hf in Hlong. lia. }
  unfold euler_flow_stepper. rewrite Hle. cbn [stepping_loop].
  replace (t (initial_locals parameters) <? p_tfinal parameters)%float
    with true by (symmetry; exact Hlt).
  rewrite Hbody. reflexivity.
Qed.

(** The final error with the status output enabled, when the equation
    of state has its two dependent variables. *)
Lemma final_error_result_with_status (l : locals Arr) :
  p_nstatus parameters > 0 ->
  (2 <= List.length (eos_call (p_eos parameters) (fields l)))%nat ->
  has_braces (p_casename parameters) = false ->
  result (final_error parameters l)
  = result (py_max (N := float) (Arr := Arr) (field_errors parameters l)).
Proof.
  intros Hn Hdv Hb.
  destruct (final_error_with_status parameters l Hn Hdv Hb) as (msg & _ & Hres).
  exact Hres.
Qed.



(** *** The files of a run *)

Lemma append_cancel_l (s a b : string) :
  (s ++ a = s ++ b)%string -> a = b.
Proof.
  induction s as [|c s IH]; simpl; intros E; [exact E|].
  injection E as E. exact (IH E).
Qed.

Lemma append_cancel_r (a b s : string) :
  (a ++ s = b ++ s)%string -> a = b.
Proof.
  intros E.
  assert (Hlen : String.length a = String.length b).
  { apply (f_equal String.length) in E. rewrite !length_append in E. lia. }
  revert b E Hlen. induction a as [|c a IH]; intros [|d b] E Hlen;
    simpl in *; try discriminate; [reflexivity|].
  injection E as -> E. f_equal. apply IH; [exact E | lia].
Qed.

Lemma step_file_name_inj (casename : string) (i j : Z) :
  0 <= i -> 0 <= j ->
  step_file_name casename i = step_file_name casename j -> i = j.
Proof.
  intros Hi Hj E. unfold step_file_name in E.
  do 4 apply append_cancel_l in E. apply append_cancel_r in E.
  apply format_04d_inj; assumption.
Qed.

Lemma step_file_name_is_step_file (casename : string) (i : Z) :
  is_step_file i (step_file_name casename i).
Proof. exists casename. reflexivity. Qed.

Lemma has_dash_append (a b : string) :
  has_dash (a ++ b) = has_dash a || has_dash b.
Proof.
  induction a as [|c a IH]; simpl; [reflexivity|].
  rewrite IH, orb_assoc. reflexivity.
Qed.

(** A string of digits holds no dash. *)
Lemma uint_of_string_no_dash (s : string) (u : Decimal.uint) :
  DecimalString.NilEmpty.uint_of_string s = Some u -> has_dash s = false.
Proof.
  revert u. induction s as [|c s IH]; intros u; simpl; [reflexivity|].
  destruct (DecimalString.NilEmpty.uint_of_string s) as [d|];
    [|discriminate].
  rewrite (IH d eq_refl), orb_false_r.
  destruct (Ascii.eqb_spec c "-") as [-> | Hc]; [discriminate | reflexivity].
Qed.

Lemma format_04d_no_dash (z : Z) : 0 <= z -> has_dash (format_04d z) = false.
Proof.
  intros Hz. pose proof (decode_format_04d Hz) as Hd.
  unfold decode_digits in Hd.
  destruct (DecimalString.NilEmpty.uint_of_string (format_04d z)) as [u|] eqn:E;
    [|discriminate].
  eapply uint_of_string_no_dash, E.
Qed.

(** What follows the last dash of a string is determined by the string. *)
Lemma after_last_dash (a b x y : string) :
  has_dash x = false -> has_dash y = false ->
  (a ++ "-" ++ x = b ++ "-" ++ y)%string -> x = y.
Proof.
  intros Hx Hy. revert b.
  induction a as [|c a IH]; intros [|d b] E; simpl in E.
  - injection E as E. exact E.
  - injection E as _ E. rewrite E, has_dash_append in Hx. simpl in Hx.
    rewrite orb_true_r in Hx. discriminate.
  - injection E as _ E. rewrite <- E, has_dash_append in Hy. simpl in Hy.
    rewrite orb_true_r in Hy. discriminate.
  - injection E as _ E. exact (IH b E).
Qed.

Lemma string_append_assoc (a b c : string) :
  ((a ++ b) ++ c = a ++ b ++ c)%string.
Proof.
  induction a as [|x a IH]; simpl; [reflexivity|]. rewrite IH. reflexivity.
Qed.

(** A file name belongs to one step. *)
Lemma is_step_file_inj (i j : Z) (name : string) :
  0 <= i -> 0 <= j -> is_step_file i name -> is_step_file j name -> i = j.
Proof.
  intros Hi Hj [p1 E1] [p2 E2]. rewrite E1 in E2. clear E1.
  assert (E : ((p1 ++ "-" ++ format_04d 0) ++ "-" ++ format_04d i
               = (p2 ++ "-" ++ format_04d 0) ++ "-" ++ format_04d j)%string).
  { apply append_cancel_r with (s := ".vtu"%string).
    rewrite !string_append_assoc. exact E2. }
  apply after_last_dash in E; try (apply format_04d_no_dash; assumption).
  apply format_04d_inj; assumption.
Qed.

Lemma vtk_names_app (tr1 tr2 : list (event float Arr)) :
  vtk_names (tr1 ++ tr2) = vtk_names tr1 ++ vtk_names tr2.
Proof. apply flat_map_app. Qed.

(** The file [write_soln] writes is a file of the current step, and with
    a case name without braces it is [step_file_name]. *)
Lemma write_soln_names (l : locals Arr) tr errs :
  write_soln parameters l = (tr, Returned errs) ->
  exists name,
    vtk_names tr = [name] /\ is_step_file (istep l) name /\
    (has_braces (p_casename parameters) = false ->
     name = step_file_name (p_casename parameters) (istep l)).
Proof.
  destruct (write_soln_cases parameters l)
    as [(e & Hw & _) | [(msg & c & m & Hw & _) | (msg & pre & Hw & _ & Hp)]];
    rewrite Hw; intros E; try discriminate.
  injection E as <- _. eexists. split; [reflexivity|].
  split; [exists pre; reflexivity|].
  intros Hb. rewrite (Hp Hb). reflexivity.
Qed.

Lemma write_soln_raised_names (l : locals Arr) tr e :
  write_soln parameters l = (tr, Raised e) -> vtk_names tr = [].
Proof.
  destruct (write_soln_cases parameters l)
    as [(e' & Hw & _) | [(msg & c & m & Hw & _) | (msg & pre & Hw & _)]];
    rewrite Hw; intros E; try discriminate; injection E as <- _; reflexivity.
Qed.

(** One pass writes at most the file of its own step. *)
Lemma loop_body_names (l : locals Arr) :
  (exists tr e, loop_body parameters l = (tr, Raised e) /\ vtk_names tr = []) \/
  (exists tr,
      loop_body parameters l
      = (tr, Returned (advance parameters (selected parameters l))) /\
      (vtk_names tr = [] \/
       exists name,
         vtk_names tr = [name] /\ is_step_file (istep l) name /\
         (has_braces (p_casename parameters) = false ->
          name = step_file_name (p_casename parameters) (istep l)))).
Proof.
  assert (Hi : istep (selected parameters l) = istep l)
    by apply selected_clock.
  destruct (divides_by_zero parameters l) eqn:Hz.
  { left. rewrite (loop_body_divides_by_zero _ _ Hz). eauto. }
  destruct (p_nstatus parameters >? 0) eqn:Hn;
    [destruct (istep l mod p_nstatus parameters =? 0) eqn:Hd|].
  - rewrite (loop_body_due l Hz Hn Hd).
    destruct (write_soln parameters (selected parameters l))
      as [tr [errs | e |]] eqn:Hw.
    + right. exists tr. split; [reflexivity|]. right.
      rewrite <- Hi. eapply write_soln_names, Hw.
    + left. exists tr, e. split; [reflexivity|].
      eapply write_soln_raised_names, Hw.
    + exfalso. eapply write_soln_not_out_of_fuel, Hw.
  - right. rewrite (loop_body_quiet l Hz (or_intror Hd)). exists []. auto.
  - right. rewrite (loop_body_quiet l Hz (or_introl Hn)). exists []. auto.
Qed.

(** The files the loop writes carry increasing steps, from the step it
    starts at and below the step it exits at. *)
Lemma stepping_loop_names (fuel : nat) (l : locals Arr) :
  exists steps,
    Forall2 is_step_file steps
      (vtk_names (trace (stepping_loop parameters fuel l))) /\
    (has_braces (p_casename parameters) = false ->
     vtk_names (trace (stepping_loop parameters fuel l))
     = map (step_file_name (p_casename parameters)) steps) /\
    StronglySorted Z.lt steps /\
    Forall (fun i => istep l <= i) steps /\
    forall l', result (stepping_loop parameters fuel l) = Returned l' ->
               istep l <= istep l' /\ Forall (fun i => i < istep l') steps.
Proof.
  revert l. induction fuel as [|fuel IH]; intros l; simpl.
  - exists []. split; [constructor|]. split; [reflexivity|].
    split; [constructor|]. split; [constructor | discriminate].
  - destruct (t l <? p_tfinal parameters)%float.
    + destruct (loop_body_names l)
        as [(tr & e & Hbody & Hnames) | (tr & Hbody & Hnames)].
      * rewrite Hbody. simpl. exists []. rewrite Hnames.
        split; [constructor|]. split; [reflexivity|]. split; [constructor|].
        split; [constructor | discriminate].
      * rewrite (bind_trace_returned _ Hbody).
        destruct (IH (advance parameters (selected parameters l)))
          as (steps & Hfiles & Hsteps & Hsorted & Hlow & Hup).
        assert (Hnext : istep (advance parameters (selected parameters l))
                        = istep l + 1).
        { destruct (advance_clock parameters (selected parameters l))
            as (Ha & _).
          destruct (selected_clock parameters l) as (Hs & _). lia. }
        rewrite Hnext in Hlow.
        destruct (stepping_loop parameters fuel
                    (advance parameters (selected parameters l)))
          as [tr2 r2].
        unfold trace, result in *. cbn [fst snd] in *.
        rewrite vtk_names_app.
        assert (Hlow' : Forall (fun i => istep l <= i) steps)
          by (eapply Forall_impl; [|exact Hlow]; simpl; intros; lia).
        assert (Hstrict : Forall (Z.lt (istep l)) steps)
          by (eapply Forall_impl; [|exact Hlow]; simpl; intros; lia).
        destruct Hnames as [-> | (name & -> & Hfile & Hplain)].
        -- exists steps. split; [exact Hfiles|]. split; [exact Hsteps|].
           split; [exact Hsorted|].
           split; [exact Hlow'|]. intros l' Hl'.
           destruct (Hup l' Hl') as [Hle Hall]. split; [lia | exact Hall].
        -- exists (istep l :: steps).
           split; [constructor; [exact Hfile | exact Hfiles]|].
           split; [intros Hb; simpl; rewrite (Hplain Hb), (Hsteps Hb);
                   reflexivity|].
           split; [constructor; assumption|].
           split; [constructor; [lia | exact Hlow']|].
           intros l' Hl'. destruct (Hup l' Hl') as [Hle Hall].
           split; [lia|]. constructor; [lia | exact Hall].
    + exists []. simpl. split; [constructor|]. split; [reflexivity|].
      split; [constructor|]. split; [constructor|].
      intros l' E. injection E as <-. split; [lia | constructor].
Qed.

(** What follows the loop writes at most the file of the final step. *)
Lemma finish_names (l : locals Arr) :
  vtk_names (trace (finish parameters l)) = [] \/
  exists name,
    vtk_names (trace (finish parameters l)) = [name] /\
    is_step_file (istep l) name /\
    (has_braces (p_casename parameters) = false ->
     name = step_file_name (p_casename parameters) (istep l)).
Proof.
  assert (Hfin : forall tr,
             trace (final_error parameters l) = tr ->
             trace (finish parameters l) = tr \/
             trace (finish parameters l) = tr ++ [EvLogInfo "Goodbye!"]).
  { intros tr Htr.
    destruct (final_error parameters l) as [tr' [maxerr | e |]] eqn:He;
      simpl in Htr; subst tr'.
    - rewrite (finish_returned_error _ _ He).
      destruct (p_exittol parameters <? maxerr)%float; simpl; auto.
    - rewrite (finish_raised_error _ _ He). auto.
    - exfalso. eapply final_error_not_out_of_fuel, He. }
  destruct (Z_le_gt_dec (p_nstatus parameters) 0) as [Hn | Hn].
  - left. destruct (final_error_without_status parameters l Hn) as (_ & Htr).
    destruct (Hfin [] Htr) as [-> | ->]; reflexivity.
  - assert (Hg : (p_nstatus parameters >? 0) = true)
      by (apply Z.gtb_gt; lia).
    destruct (write_soln parameters l) as [tr [errs | e |]] eqn:Hw.
    + right. destruct (write_soln_names _ Hw) as (name & Hname & Hfile & Hp).
      exists name. split; [|split; [exact Hfile | exact Hp]].
      assert (Htr : trace (final_error parameters l)
                    = EvLogInfo "Writing final dump." :: tr).
      { unfold final_error. rewrite Hg, Hw. unfold_effects.
        destruct errs; simpl; rewrite app_nil_r; reflexivity. }
      destruct (Hfin _ Htr) as [-> | ->]; simpl;
        rewrite ?vtk_names_app, Hname; reflexivity.
    + left. pose proof (write_soln_raised_names _ Hw) as Hname.
      assert (Htr : trace (final_error parameters l)
                    = EvLogInfo "Writing final dump." :: tr).
      { unfold final_error. rewrite Hg, Hw. reflexivity. }
      destruct (Hfin _ Htr) as [-> | ->]; simpl;
        rewrite ?vtk_names_app, Hname; reflexivity.
    + exfalso. eapply write_soln_not_out_of_fuel, Hw.
Qed.

Lemma sorted_no_dup (steps : list Z) :
  StronglySorted Z.lt steps -> NoDup steps.
Proof.
  induction 1 as [|i steps Hsorted IH Hall]; constructor; [|exact IH].
  intros Hin. rewrite Forall_forall in Hall. specialize (Hall i Hin). lia.
Qed.

(** The files of different steps are different files. *)
Lemma step_files_no_dup (steps : list Z) (names : list string) :
  Forall2 is_step_file steps names ->
  Forall (fun i => 0 <= i) steps -> NoDup steps -> NoDup names.
Proof.
  induction 1 as [|i name steps names Hfile Hrest IH]; intros Hpos Hnd;
    [constructor|].
  inversion Hpos as [|? ? Hi Hpos']; subst.
  inversion Hnd as [|? ? Hnotin Hnd']; subst.
  constructor; [|apply IH; assumption].
  intros Hin. apply Hnotin. clear IH Hnd Hnd' Hnotin Hpos.
  induction Hrest as [|j name' steps names Hfile' Hrest IH'];
    [contradiction|].
  inversion Hpos' as [|? ? Hj Hpos'']; subst.
  destruct Hin as [-> | Hin].
  - left. symmetry. eapply is_step_file_inj; eassumption.
  - right. apply IH'; assumption.
Qed.

Lemma Forall2_app_one (steps : list Z) (names : list string)
    (i : Z) (name : string) :
  Forall2 is_step_file steps names -> is_step_file i name ->
  Forall2 is_step_file (steps ++ [i]) (names ++ [name]).
Proof.
  intros Hrest Hfile. apply Forall2_app; [exact Hrest|].
  constructor; [exact Hfile | constructor].
Qed.

(** The trace of a run that enters the loop. *)
Lemma euler_flow_stepper_trace (fuel : nat) :
  (p_tfinal parameters <=? p_time parameters)%float = false ->
  trace (euler_flow_stepper parameters fuel)
  = EvLogInfo (init_message parameters)
      :: trace (stepping_loop parameters fuel (initial_locals parameters))
      ++ match result (stepping_loop parameters fuel
                         (initial_locals parameters)) with
         | Returned l => trace (finish parameters l)
         | _ => []
         end.
Proof.
  intros Hc.
  destruct (stepping_loop parameters fuel (initial_locals parameters))
    as [tr [l | e |]] eqn:Hl.
  - rewrite (euler_flow_stepper_run _ _ Hc Hl). reflexivity.
  - unfold euler_flow_stepper. rewrite Hc, Hl. simpl.
    rewrite app_nil_r. reflexivity.
  - unfold euler_flow_stepper. rewrite Hc, Hl. simpl.
    rewrite app_nil_r. reflexivity.
Qed.

Lemma vtk_names_log (msg : string) (tr : list (event float Arr)) :
  vtk_names (EvLogInfo msg :: tr) = vtk_names tr.
Proof. reflexivity. Qed.

(** X19: no file is written twice.  In every run, however it ends, the
    files written carry different names: the dumps of the loop are those
    of increasing steps, the final dump is that of the step the loop
    exits at, which the loop has not dumped, and different steps have
    different names. *)
Theorem euler_flow_stepper_files_distinct (fuel : nat) :
  NoDup (vtk_names (trace (euler_flow_stepper parameters fuel))).
Proof.
  destruct (p_tfinal parameters <=? p_time parameters)%float eqn:Hc.
  - unfold euler_flow_stepper. rewrite Hc. constructor.
  - rewrite (euler_flow_stepper_trace fuel Hc), vtk_names_log, vtk_names_app.
    destruct (stepping_loop_names fuel (initial_locals parameters))
      as (steps & Hfiles & _ & Hsorted & Hlow & Hup).
    assert (Hpos : Forall (fun i => 0 <= i) steps) by exact Hlow.
    destruct (result (stepping_loop parameters fuel (initial_locals parameters)))
      as [l | e |].
    + destruct (Hup l eq_refl) as [Hle Hall].
      destruct (finish_names l) as [-> | (name & -> & Hfile & _)].
      * rewrite app_nil_r. eapply step_files_no_dup;
          [exact Hfiles | exact Hpos | apply sorted_no_dup, Hsorted].
      * eapply step_files_no_dup;
          [apply Forall2_app_one; [exact Hfiles | exact Hfile] | |].
        -- apply Forall_app. split; [exact Hpos|].
           constructor; [exact Hle | constructor].
        -- apply NoDup_app; [apply sorted_no_dup, Hsorted | |].
           ++ constructor; [intros [] | constructor].
           ++ intros i Hi [<- | []]. rewrite Forall_forall in Hall.
              specialize (Hall _ Hi). lia.
    + simpl. rewrite app_nil_r. eapply step_files_no_dup;
        [exact Hfiles | exact Hpos | apply sorted_no_dup, Hsorted].
    + simpl. rewrite app_nil_r. eapply step_files_no_dup;
        [exact Hfiles | exact Hpos | apply sorted_no_dup, Hsorted].
Qed.

End StepperLoop.

(** X12 at a concrete run: status interval 0, two passes. *)
Lemma euler_flow_stepper_quiet_example :
  let p := Examples.ode_parameters 1 0 0.125 in
  trace (Steppers.euler_flow_stepper (HI := Examples.ode_imports) p 3)
    = [EvLogInfo (Steppers.init_message (HI := Examples.ode_imports) p)] \/
  trace (Steppers.euler_flow_stepper (HI := Examples.ode_imports) p 3)
    = [EvLogInfo (Steppers.init_message (HI := Examples.ode_imports) p);
       EvLogInfo "Goodbye!"].
Proof.
  intros p.
  refine (proj2 (euler_flow_stepper_quiet (HI := Examples.ode_imports) p 3 _) _).
  - simpl. lia.
  - reflexivity.
Defined.

(** X13 at a concrete run: two passes of 0.75 from 0. *)
Lemma stepping_loop_fixed_dt_example :
  let p := Examples.ode_parameters 1 0 0.125 in
  Steppers.dt Examples.ode_final = 0.75%float /\
  exists n : nat,
    (n < 3)%nat /\ Steppers.istep Examples.ode_final = 0 + Z.of_nat n /\
    Steppers.t Examples.ode_final
    = Nat.iter n (fun x => (x + 0.75)%float) 0%float.
Proof.
  intros p.
  refine (proj1 (stepping_loop_fixed_dt (HI := Examples.ode_imports) p 3
                   (Steppers.initial_locals (HI := Examples.ode_imports) p)
                   (l' := Examples.ode_final) (tr := []) _) _);
    reflexivity.
Defined.

(** X14 at a concrete run: from time 0 with a step size of zero and a
    stable step size of one half the loop does not exit within a thousand
    evaluations of its condition. *)
Lemma stepping_loop_stalls_example :
  let p := MoreExamples.ode_run 0 1 0 0 0.125 Examples.ode_eos
             Examples.ode_initializer in
  Steppers.stepping_loop (HI := Examples.ode_imports) p 1000
    (Steppers.initial_locals (HI := Examples.ode_imports) p)
  = ([], OutOfFuel).
Proof.
  intros p.
  refine (stepping_loop_stalls (HI := Examples.ode_imports) p
            (fun l => Steppers.t l = 0%float /\ Steppers.dt l = 0%float /\
                      Steppers.sdt l = 0.5%float)
            _ _ (Steppers.initial_locals (HI := Examples.ode_imports) p) _ 1000).
  - simpl. lia.
  - intros l (Ht & Hdt & Hsdt).
    unfold Steppers.advance, Steppers.select_dt, selected, py_truediv. simpl.
    rewrite Ht, Hdt, Hsdt. repeat split; reflexivity.
  - repeat split; reflexivity.
Defined.

(** X15 at a concrete run: the start time is NaN. *)
Lemma euler_flow_stepper_nan_clock_example :
  let p := MoreExamples.ode_run PrimFloat.nan 1 0.75 0 0.125 Examples.ode_eos
             Examples.ode_initializer in
  Steppers.stepping_loop (HI := Examples.ode_imports) p 3
    (Steppers.initial_locals (HI := Examples.ode_imports) p)
  = ([], Returned (Steppers.initial_locals (HI := Examples.ode_imports) p)).
Proof.
  intros p.
  refine (proj1 (euler_flow_stepper_nan_clock (HI := Examples.ode_imports)
                   p 2 _)).
  left. reflexivity.
Defined.

(** X16 at a concrete run: an equation of state with one dependent
    variable and a status interval of 1. *)
Lemma euler_flow_stepper_short_eos_example :
  let p := MoreExamples.ode_run 0 1 0.75 1 0.125 MoreExamples.short_eos
             Examples.ode_initializer in
  Steppers.euler_flow_stepper (HI := Examples.ode_imports) p 3
  = ([EvLogInfo (Steppers.init_message (HI := Examples.ode_imports) p)],
     Raised (IndexError "list index out of range")).
Proof.
  intros p.
  refine (euler_flow_stepper_short_eos (HI := Examples.ode_imports) p 2
            _ _ _ _ _).
  - simpl. lia.
  - reflexivity.
  - reflexivity.
  - reflexivity.
  - simpl. lia.
Defined.



(** ** [euler_flow_stepper]: which steps the loop dumps *)

Section StepperDumps.

Import Steppers.

Context {Arr Bnd : Type} {HI : Imports Arr Bnd}.
Variable parameters : Parameters Arr Bnd.

Lemma steps_from_succ (a : Z) (n : nat) :
  steps_from a (S n) = a :: steps_from (a + 1) n.
Proof.
  unfold steps_from. cbn [seq map]. f_equal; [lia|].
  rewrite <- seq_shift, map_map. apply map_ext. intros k. lia.
Qed.

(** A pass that completes has dumped its step exactly when the status
    interval is positive and divides it. *)
Lemma loop_body_returned_names (l l' : locals Arr) tr :
  has_braces (p_casename parameters) = false ->
  loop_body parameters l = (tr, Returned l') ->
  vtk_names tr
  = if (p_nstatus parameters >? 0) && (istep l mod p_nstatus parameters =? 0)
    then [step_file_name (p_casename parameters) (istep l)]
    else [].
Proof.
  intros Hb Hbody.
  pose proof (loop_body_returned_divisor _ _ Hbody) as Hz. revert Hbody.
  assert (Hi : istep (selected parameters l) = istep l)
    by apply selected_clock.
  destruct (p_nstatus parameters >? 0) eqn:Hn;
    [destruct (istep l mod p_nstatus parameters =? 0) eqn:Hd|]; simpl.
  - rewrite (loop_body_due parameters l Hz Hn Hd).
    destruct (write_soln_plain parameters (selected parameters l) Hb)
      as [(e & Hw & _) | (msg & Hw & _)]; rewrite Hw; [discriminate|].
    intros E. injection E as <- _.
    unfold vtk_names, dump_name, step_file_name. simpl. rewrite Hi.
    reflexivity.
  - rewrite (loop_body_quiet parameters l Hz (or_intror Hd)).
    intros E. injection E as <- _. reflexivity.
  - rewrite (loop_body_quiet parameters l Hz (or_introl Hn)).
    intros E. injection E as <- _. reflexivity.
Qed.

(** X21: the loop dumps the status steps.  With a case name that holds
    no brace, when the loop exits after [n] passes from step [istep], the
    files it has written are, in order, those of the steps among
    [istep .. istep + n - 1] that the status interval divides, the
    interval being positive; with an interval of 0 or less it has written
    none (where [check_step] would call every step due at interval 0). *)
Theorem stepping_loop_dumps_status_steps (fuel : nat) (l l' : locals Arr) tr :
  has_braces (p_casename parameters) = false ->
  stepping_loop parameters fuel l = (tr, Returned l') ->
  exists n : nat,
    istep l' = istep l + Z.of_nat n /\
    vtk_names tr
    = map (step_file_name (p_casename parameters))
        (filter (fun i => (p_nstatus parameters >? 0)
                          && (i mod p_nstatus parameters =? 0))
                (steps_from (istep l) n)).
Proof.
  intros Hb.
  revert l tr. induction fuel as [|fuel IH]; intros l tr; simpl; [discriminate|].
  destruct (t l <? p_tfinal parameters)%float.
  - intros E.
    apply bind_returned in E as (tr1 & l1 & tr2 & Hbody & Hrest & ->).
    pose proof (loop_body_returned_names _ Hb Hbody) as Hnames.
    apply loop_body_returned in Hbody.
    assert (Hnext : istep l1 = istep l + 1).
    { subst l1.
      destruct (advance_clock parameters (selected parameters l)) as (Ha & _).
      destruct (selected_clock parameters l) as (Hs & _). lia. }
    destruct (IH _ _ Hrest) as (n & Hstep & Hrestnames).
    exists (S n). split; [lia|].
    rewrite vtk_names_app, Hnames, Hrestnames, steps_from_succ, Hnext.
    cbn [filter].
    destruct ((p_nstatus parameters >? 0)
              && (istep l mod p_nstatus parameters =? 0)); reflexivity.
  - intros E. injection E as <- <-. exists 0%nat. split; [lia | reflexivity].
Qed.

(** X22: the early return and the loop condition.  When neither the
    start time nor the final time is NaN, a run that does not return
    early finds [t < t_final]: the loop makes at least one pass, so when
    it exits the step counter is at least 1. *)
Theorem euler_flow_stepper_first_pass (fuel : nat) (l' : locals Arr) tr :
  PrimFloat.is_nan (p_time parameters) = false ->
  PrimFloat.is_nan (p_tfinal parameters) = false ->
  (p_tfinal parameters <=? p_time parameters)%float = false ->
  stepping_loop parameters fuel (initial_locals parameters) = (tr, Returned l') ->
  (p_time parameters <? p_tfinal parameters)%float = true /\
  1 <= istep l'.
Proof.
  intros Ht Hf Hle Hloop.
  assert (Hlt : (p_time parameters <? p_tfinal parameters)%float = true).
  { destruct (p_time parameters <? p_tfinal parameters)%float eqn:Hlt;
      [reflexivity|].
    rewrite (float_not_gt_leb Hf Ht Hlt) in Hle. discriminate. }
  split; [exact Hlt|].
  destruct fuel as [|fuel]; [discriminate|]. cbn [stepping_loop] in Hloop.
  replace (t (initial_locals parameters) <? p_tfinal parameters)%float
    with true in Hloop by (symmetry; exact Hlt).
  apply bind_returned in Hloop as (tr1 & l1 & tr2 & Hbody & Hrest & _).
  apply loop_body_returned in Hbody.
  destruct (stepping_loop_returned _ _ _ Hrest) as (_ & n & _ & Hstep & _).
  assert (Hnext : istep l1 = 1).
  { subst l1.
    destruct (advance_clock parameters
                (selected parameters (initial_locals parameters))) as (Ha & _).
    destruct (selected_clock parameters (initial_locals parameters))
      as (Hs & _).
    rewrite Ha, Hs. reflexivity. }
  lia.
Qed.

End StepperDumps.

(** X21 at a concrete run: from 0 to 4 in steps of 0.75 with a status
    interval of 2 the loop makes six passes and dumps steps 0, 2 and 4. *)
Lemma stepping_loop_dumps_status_steps_example :
  let p := MoreExamples.ode_run 0 4 0.75 2 10 Examples.ode_eos
             Examples.ode_initializer in
  exists tr l',
    Steppers.stepping_loop (HI := Examples.ode_imports) p 10
      (Steppers.initial_locals (HI := Examples.ode_imports) p)
    = (tr, Returned l') /\
    Steppers.istep l' = 6 /\
    vtk_names tr = map (step_file_name "ode") [0; 2; 4].
Proof.
  intros p.
  eassert (Hloop : Steppers.stepping_loop (HI := Examples.ode_imports) p 10
                     (Steppers.initial_locals (HI := Examples.ode_imports) p)
                   = (_, Returned _)) by (vm_compute; reflexivity).
  destruct (stepping_loop_dumps_status_steps (HI := Examples.ode_imports)
              p 10 _ eq_refl Hloop) as (n & Hn & Hnames).
  assert (Hsix : n = 6%nat) by (simpl in Hn; lia). subst n.
  eexists _, _. split; [exact Hloop|]. split; [reflexivity | exact Hnames].
Defined.

(** X22 at a concrete run: from 0 to 1 in steps of 0.75. *)
Lemma euler_flow_stepper_first_pass_example :
  1 <= Steppers.istep Examples.ode_final.
Proof.
  refine (proj2 (euler_flow_stepper_first_pass (HI := Examples.ode_imports)
                   (Examples.ode_parameters 1 0 0.125) 3
                   (l' := Examples.ode_final) (tr := []) _ _ _ _));
    reflexivity.
Defined.
